(** * The update scheduler of gtsam_tags_node.cpp

    A shallow embedding of [LocalizerRunner::Update] and of the argument
    handling of [main] (src/gtsam_tags_node.cpp), and the properties of the
    specification that concern them.

    [Update] is a method that mutates three members of the runner
    ([gotInitialGuess], [lastOdomTimestamp], [tooNewCameraObservations]) and
    calls its collaborators.  Here the three members are a record that is
    passed explicitly, what the listeners answer during one call is the
    [Tick] argument, and every call made to the estimator, the layout
    registry, the publisher, the transport and the sleep is recorded, in
    program order, as an [Event]: the call, stamped with the value
    [lastOdomTimestamp] has when the call is made.  An observation is
    passed to the estimator by reference, and the record says whether the
    element referred to is alive at the call.  Lines written with
    [fmt::println] inside [Update] are not recorded. *)

From Stdlib Require Import List Bool NArith ZArith String Lia.
From Stdlib Require Import Sorted Permutation.
Import ListNotations.

Set Implicit Arguments.

(** ** Data *)

Section Scheduler.

(** The payloads are declared in headers that the scheduler only passes
    along: the pose and the noise of a prior, a tag layout, the twist of an
    odometry sample, the tag detections of a camera observation. *)
Context {Pose Noise Layout Twist Meas : Type}.

(** [prior->value.pose], [prior->value.noise], [prior->time]. *)
Record PoseWithNoise := { pose : Pose; noise : Noise }.
Record TimestampedPrior := { value : PoseWithNoise; time : Z }.

(** An odometry sample and a camera observation both carry [timeUs], which
    the scheduler compares with the [uint64_t] member [lastOdomTimestamp].
    No arithmetic is done on it, only comparison and assignment. *)
Record Stamped (A : Type) := { timeUs : N; payload : A }.

Definition OdometryObservation := Stamped Twist.
Definition CameraVisionObservation := Stamped Meas.

(** One element of [cameraListeners] as seen during one call of [Update]:
    what [ReadyToOptimize()] answers and what [Update()] returns if it is
    called. *)
Record CameraListener := {
  ReadyToOptimize : bool;
  cam_update : list CameraVisionObservation
}.

(** Modelled from the spec: [Localizer::Optimize] is declared in localizer.h
    and defined outside this file; it either solves the accumulated factors
    or fails with an estimation error, an exception that the handler
    [catch (const std::exception &e)] of [Update] receives. *)
Inductive OptimizeResult :=
| Solved
| EstimationError (what : string).

(** What the collaborators answer during one call of [Update]: [prior] and
    [layout] are the results of [configListener.NewPosePrior()] and
    [configListener.NewTagLayout()], [odomUpdate] that of
    [odomListener.Update()], [optimize] what [localizer->Optimize()] does
    if it is called. *)
Record Tick := {
  prior : option TimestampedPrior;
  layout : option Layout;
  odomUpdate : list OdometryObservation;
  cameraListeners : list CameraListener;
  optimize : OptimizeResult
}.

(** What [AddTagObservation] receives at lines 124 and 133: [it], a
    reference to an element of [cam_update] or of the deque.  [Live o]: the
    element is alive and holds [o].  [Destroyed was]: the element held
    [was] when line 130 tested it, and [pop_front] at line 132 has
    destroyed it before the call at line 133; C++ gives no meaning to what
    is read through such a reference, and the model says nothing about
    it. *)
Inductive Reference :=
| Live (o : CameraVisionObservation)
| Destroyed (was : CameraVisionObservation).

(** The element a reference points to, as it was when last alive. *)
Definition referent (x : Reference) : CameraVisionObservation :=
  match x with
  | Live o => o
  | Destroyed was => was
  end.

(** The calls [Update] makes, as they appear in the source. *)
Inductive Call :=
| Reset (p : Pose) (n : Noise) (t : Z)
| SetLayout (l : Layout)
| AddOdometry (o : OdometryObservation)
| AddTagObservation (it : Reference)
| Optimize
| DataPublisherUpdate
| Flush
| Print
| sleep_for (ms : N).

(** A call together with the watermark at the moment it is made. *)
Record Event := { watermark : N; call : Call }.

(** The mutable members of [LocalizerRunner]. *)
Record LocalizerRunner := {
  gotInitialGuess : bool;
  lastOdomTimestamp : N;
  tooNewCameraObservations : list CameraVisionObservation
}.

(** The state the constructor leaves. *)
Definition newRunner : LocalizerRunner :=
  {| gotInitialGuess := false;
     lastOdomTimestamp := 0;
     tooNewCameraObservations := [] |}.

Definition set_gotInitialGuess (b : bool) (r : LocalizerRunner) :=
  {| gotInitialGuess := b;
     lastOdomTimestamp := lastOdomTimestamp r;
     tooNewCameraObservations := tooNewCameraObservations r |}.

Definition set_lastOdomTimestamp (t : N) (r : LocalizerRunner) :=
  {| gotInitialGuess := gotInitialGuess r;
     lastOdomTimestamp := t;
     tooNewCameraObservations := tooNewCameraObservations r |}.

Definition push_back (o : CameraVisionObservation) (r : LocalizerRunner) :=
  {| gotInitialGuess := gotInitialGuess r;
     lastOdomTimestamp := lastOdomTimestamp r;
     tooNewCameraObservations := tooNewCameraObservations r ++ [o] |}.

(** [std::deque::pop_front]: the first element goes, whichever it is. *)
Definition pop_front (r : LocalizerRunner) :=
  {| gotInitialGuess := gotInitialGuess r;
     lastOdomTimestamp := lastOdomTimestamp r;
     tooNewCameraObservations := tl (tooNewCameraObservations r) |}.

Definition record (r : LocalizerRunner) (c : Call) : Event :=
  {| watermark := lastOdomTimestamp r; call := c |}.

(** ** [LocalizerRunner::Update], block by block *)

(** Lines 80-84. *)
Definition priorStep (prior : option TimestampedPrior) (r : LocalizerRunner)
  : LocalizerRunner * list Event :=
  match prior with
  | Some p =>
      if negb (gotInitialGuess r)
      then (set_gotInitialGuess true r,
            [record r (Reset (pose (value p)) (noise (value p)) (time p))])
      else (r, [])
  | None => (r, [])
  end.

(** Lines 86-93. *)
Definition layoutStep (layout : option Layout) (r : LocalizerRunner)
  : LocalizerRunner * list Event :=
  match layout with
  | Some l => (set_gotInitialGuess false r, [record r (SetLayout l)])
  | None => (r, [])
  end.

(** Lines 99-103: the loop over [odomUpdate]. *)
Fixpoint odomLoop (samples : list OdometryObservation) (r : LocalizerRunner)
  : LocalizerRunner * list Event :=
  match samples with
  | [] => (r, [])
  | it :: rest =>
      let t := if (lastOdomTimestamp r <? timeUs it)%N
               then timeUs it else lastOdomTimestamp r in
      let r1 := set_lastOdomTimestamp t r in
      let '(r', evs) := odomLoop rest r1 in
      (r', record r1 (AddOdometry it) :: evs)
  end.

(** Lines 117-125: the loop over [cam_update] of a ready camera. *)
Fixpoint camUpdateLoop (obs : list CameraVisionObservation)
  (r : LocalizerRunner) : LocalizerRunner * list Event :=
  match obs with
  | [] => (r, [])
  | it :: rest =>
      if (lastOdomTimestamp r <? timeUs it)%N
      then camUpdateLoop rest (push_back it r)
      else let '(r', evs) := camUpdateLoop rest r in
           (r', record r (AddTagObservation (Live it)) :: evs)
  end.

(** Lines 129-135: the range-for over [tooNewCameraObservations] whose body
    pops the front of the same deque.  The iterator and the end of the range
    are taken once, before the first iteration, and [pop_front] moves no
    element, so the loop visits the elements the deque had when the loop
    began, in order: they are [range].  [ahead] is the number of elements
    between the front of the deque and [it]: 0 when the loop begins, one
    more after each element that is skipped, the same after each element
    that goes, since the iterator and the front both move on by one.  When
    an element is visited, no more pops have happened than elements were
    visited before it, so it is alive when line 130 reads its [timeUs].
    [pop_front] at line 132 then removes the element that is first at that
    moment.  With [ahead] above 0 that is another element and [it] is
    alive at line 133.  With [ahead] 0 it is [it] itself, and line 133
    passes a reference to a destroyed element. *)
Fixpoint backlogLoop (range : list CameraVisionObservation) (ahead : nat)
  (r : LocalizerRunner) : LocalizerRunner * list Event :=
  match range with
  | [] => (r, [])
  | it :: rest =>
      if (timeUs it <=? lastOdomTimestamp r)%N
      then let r1 := pop_front r in
           let passed := if Nat.eqb ahead 0 then Destroyed it else Live it in
           let '(r', evs) := backlogLoop rest ahead r1 in
           (r', record r1 (AddTagObservation passed) :: evs)
      else backlogLoop rest (S ahead) r
  end.

(** Lines 109-135: the body of the loop over [cameraListeners], for one
    camera. *)
Definition cameraStep (cam : CameraListener) (r : LocalizerRunner)
  : LocalizerRunner * list Event :=
  let '(r1, fresh) :=
    if ReadyToOptimize cam then camUpdateLoop (cam_update cam) r
    else (r, []) in
  let '(r2, replayed) := backlogLoop (tooNewCameraObservations r1) 0 r1 in
  (r2, fresh ++ replayed).

(** Lines 108-136; [readyToOptimize] is the local variable of [Update]. *)
Fixpoint cameraLoop (cams : list CameraListener) (readyToOptimize : bool)
  (r : LocalizerRunner) : bool * LocalizerRunner * list Event :=
  match cams with
  | [] => (readyToOptimize, r, [])
  | cam :: rest =>
      let ready := ReadyToOptimize cam in
      let '(r1, evs1) := cameraStep cam r in
      let '(b, r2, evs2) :=
        cameraLoop rest (readyToOptimize && ready) r1 in
      (b, r2, evs1 ++ evs2)
  end.

(** How a call of [Update] ends.  What [throw e;] at line 154 throws is a
    copy of the [std::exception] part of the exception that was caught, so
    the caller sees that [Update] threw and not the original object. *)
Inductive Outcome :=
| Returned
| Threw.

(** Lines 138-155, entered with the final value of [readyToOptimize]. *)
Definition optimizeStep (readyToOptimize : bool) (res : OptimizeResult)
  (r : LocalizerRunner) : list Event * Outcome :=
  if negb readyToOptimize then ([record r (sleep_for 1000)], Returned)
  else match res with
       | Solved =>
           ([record r Optimize; record r DataPublisherUpdate; record r Flush],
            Returned)
       | EstimationError _ =>
           ([record r Optimize; record r Print], Threw)
       end.

(** Lines 78-136: the runner and the value of [readyToOptimize] at line
    138, with the calls made up to there. *)
Definition gather (r : LocalizerRunner) (t : Tick)
  : bool * LocalizerRunner * list Event :=
  let '(r1, e1) := priorStep (prior t) r in
  let '(r2, e2) := layoutStep (layout t) r1 in
  let readyToOptimize := true && gotInitialGuess r2 in
  let '(r3, e3) := odomLoop (odomUpdate t) r2 in
  let '(b, r4, e4) := cameraLoop (cameraListeners t) readyToOptimize r3 in
  (b, r4, e1 ++ e2 ++ e3 ++ e4).

(** The aggregate readiness of a tick: [readyToOptimize] at line 138. *)
Definition readyToOptimize (r : LocalizerRunner) (t : Tick) : bool :=
  fst (fst (gather r t)).

(** What one call of [Update] leaves: the members, the calls it made and
    how it ended. *)
Record Result := {
  runner : LocalizerRunner;
  events : list Event;
  outcome : Outcome
}.

Definition Update (r : LocalizerRunner) (t : Tick) : Result :=
  let '(b, r', evs) := gather r t in
  let '(last, out) := optimizeStep b (optimize t) r' in
  {| runner := r'; events := evs ++ last; outcome := out |}.

(** The loop of [main], lines 182-186, over the answers [ticks] of the
    collaborators: the calls of [Update] that are made, each with the
    members it starts from.  An exception leaves [main], so no call
    follows one that threw.  The wait of 10 ms between two calls is not
    recorded. *)
Fixpoint mainLoop (r : LocalizerRunner) (ticks : list Tick)
  : list (LocalizerRunner * Tick) :=
  match ticks with
  | [] => []
  | t :: rest =>
      (r, t) ::
      match outcome (Update r t) with
      | Returned => mainLoop (runner (Update r t)) rest
      | Threw => []
      end
  end.

(** ** Reading a list of events *)

Definition calls (evs : list Event) : list Call := map call evs.

(** The references handed to [AddTagObservation], in order. *)
Definition tagObservations (evs : list Event) : list Reference :=
  flat_map (fun e => match call e with
                     | AddTagObservation x => [x]
                     | _ => []
                     end) evs.

(** The elements those references point to. *)
Definition referents (evs : list Event) : list CameraVisionObservation :=
  flat_map (fun e => match call e with
                     | AddTagObservation x => [referent x]
                     | _ => []
                     end) evs.

Definition odometry (evs : list Event) : list OdometryObservation :=
  flat_map (fun e => match call e with
                     | AddOdometry o => [o]
                     | _ => []
                     end) evs.

Definition resets (evs : list Event) : list (Pose * Noise * Z) :=
  flat_map (fun e => match call e with
                     | Reset p n t => [(p, n, t)]
                     | _ => []
                     end) evs.

(** Which operation a call is, whatever its arguments. *)
Inductive Kind :=
| KReset | KSetLayout | KAddOdometry | KAddTagObservation
| KOptimize | KDataPublisherUpdate | KFlush | KPrint | KSleep.

Definition kind (c : Call) : Kind :=
  match c with
  | Reset _ _ _ => KReset
  | SetLayout _ => KSetLayout
  | AddOdometry _ => KAddOdometry
  | AddTagObservation _ => KAddTagObservation
  | Optimize => KOptimize
  | DataPublisherUpdate => KDataPublisherUpdate
  | Flush => KFlush
  | Print => KPrint
  | sleep_for _ => KSleep
  end.

Definition only (k : Kind) (evs : list Event) : Prop :=
  Forall (fun e => kind (call e) = k) evs.

(** An observation handed to the estimator through a live reference is not
    newer than the watermark of that moment. *)
Definition admissible (e : Event) : Prop :=
  match call e with
  | AddTagObservation (Live o) => (timeUs o <= watermark e)%N
  | _ => True
  end.

(** Every event of [evs] is a delivery of an observation made while the
    watermark is [w], and none passed alive is newer than [w]. *)
Definition deliveries (w : N) (evs : list Event) : Prop :=
  only KAddTagObservation evs
  /\ Forall admissible evs
  /\ Forall (fun e => watermark e = w) evs.

(** Whether the call of [Update] from members [fst x] on tick [snd x]
    applies a prior to the estimator. *)
Definition appliesPrior (x : LocalizerRunner * Tick) : bool :=
  match resets (events (Update (fst x) (snd x))) with
  | [] => false
  | _ :: _ => true
  end.

(** The watermark after the samples [ts], starting from [w]. *)
Definition runningMax (w : N) (ts : list N) : N := fold_left N.max ts w.

Definition sampleTimes (ticks : list Tick) : list N :=
  flat_map (fun t => map (@timeUs Twist) (odomUpdate t)) ticks.

(** ** The configuration source *)

(** Modelled from the spec: [ConfigListener] is declared in
    config_listener.h and defined outside this file.  [NewPosePrior()]
    returns an optional prior, non-empty only on change since the last
    call, and [NewTagLayout()] an optional layout, non-empty only on
    change: the listener keeps the change that arrived since the last call
    and hands it out once. *)
Record ConfigListener := {
  priorChange : option TimestampedPrior;
  layoutChange : option Layout
}.

Definition NewPosePrior (cl : ConfigListener)
  : option TimestampedPrior * ConfigListener :=
  (priorChange cl, {| priorChange := None; layoutChange := layoutChange cl |}).

Definition NewTagLayout (cl : ConfigListener)
  : option Layout * ConfigListener :=
  (layoutChange cl, {| priorChange := priorChange cl; layoutChange := None |}).

(** What is published to the listener between two calls of [Update]; a
    newer value replaces one that waits. *)
Record Published := {
  newPrior : option TimestampedPrior;
  newLayout : option Layout
}.

Definition publish (p : Published) (cl : ConfigListener) : ConfigListener :=
  {| priorChange := match newPrior p with
                    | Some x => Some x
                    | None => priorChange cl
                    end;
     layoutChange := match newLayout p with
                     | Some x => Some x
                     | None => layoutChange cl
                     end |}.

(** Lines 80 and 86 against the listener: the tick in which [prior] and
    [layout] are what the listener hands out, the other answers being those
    of [t]. *)
Definition askConfig (cl : ConfigListener) (t : Tick)
  : ConfigListener * Tick :=
  let '(p, cl1) := NewPosePrior cl in
  let '(l, cl2) := NewTagLayout cl1 in
  (cl2, {| prior := p; layout := l;
           odomUpdate := odomUpdate t;
           cameraListeners := cameraListeners t;
           optimize := optimize t |}).

(** The ticks a listener produces when [feed] tells, for each call of
    [Update], what was published before it. *)
Fixpoint listen (cl : ConfigListener) (feed : list (Published * Tick))
  : list Tick :=
  match feed with
  | [] => []
  | (p, t) :: rest =>
      let '(cl', t') := askConfig (publish p cl) t in
      t' :: listen cl' rest
  end.

(** ** [main] *)

(** What [main] does with its arguments and the ticks that follow: the
    lines it prints before the loop, the path it gives to [ParseConfig],
    the calls of [Update] that are made and the value it returns, if it
    returns.  [ParseConfig] and the set-up of the transport, lines 171-178,
    are taken to succeed. *)
Record Process := {
  printed : list string;
  configPath : option string;
  updates : list (LocalizerRunner * Tick);
  returned : option Z
}.

Definition startLoop (path : string) (ticks : list Tick) : Process :=
  {| printed := [("Loading config from: " ++ path)%string];
     configPath := Some path;
     updates := mainLoop newRunner ticks;
     returned := None |}.

(** Lines 159-168; [argc] is the length of [argv], the name of the program
    included. *)
Definition main (argv : list string) (ticks : list Tick) : Process :=
  let argc := List.length argv in
  if Nat.eqb argc 1 then startLoop "test/resources/simulator.json" ticks
  else if Nat.eqb argc 2 then startLoop (nth 1 argv EmptyString) ticks
  else {| printed := ["Got an odd number of program arguments!"%string];
          configPath := None;
          updates := [];
          returned := Some (-1)%Z |}.

(** The references handed to the estimator by each call of [Update] of
    a run. *)
Definition deliveredPerTick (r : LocalizerRunner) (ticks : list Tick)
  : list (list Reference) :=
  map (fun x => tagObservations (events (Update (fst x) (snd x))))
    (mainLoop r ticks).

(** The members after the last call of [Update] of a run. *)
Definition finalRunner (r : LocalizerRunner) (ticks : list Tick)
  : LocalizerRunner :=
  match last (map Some (mainLoop r ticks)) None with
  | Some x => runner (Update (fst x) (snd x))
  | None => r
  end.

(** ** Inputs for examples *)

Definition sample (us : N) (d : Twist) : OdometryObservation :=
  {| timeUs := us; payload := d |}.

Definition observation (us : N) (m : Meas) : CameraVisionObservation :=
  {| timeUs := us; payload := m |}.

Definition camera (ready : bool) (obs : list CameraVisionObservation)
  : CameraListener :=
  {| ReadyToOptimize := ready; cam_update := obs |}.

(** A tick in which nothing arrives. *)
Definition idle (cams : list CameraListener) : Tick :=
  {| prior := None; layout := None; odomUpdate := [];
     cameraListeners := cams; optimize := Solved |}.

Definition withPrior (p : TimestampedPrior) (t : Tick) : Tick :=
  {| prior := Some p; layout := layout t; odomUpdate := odomUpdate t;
     cameraListeners := cameraListeners t; optimize := optimize t |}.

Definition withLayout (l : Layout) (t : Tick) : Tick :=
  {| prior := prior t; layout := Some l; odomUpdate := odomUpdate t;
     cameraListeners := cameraListeners t; optimize := optimize t |}.

Definition withOdometry (samples : list OdometryObservation) (t : Tick)
  : Tick :=
  {| prior := prior t; layout := layout t; odomUpdate := samples;
     cameraListeners := cameraListeners t; optimize := optimize t |}.

Definition failing (what : string) (t : Tick) : Tick :=
  {| prior := prior t; layout := layout t; odomUpdate := odomUpdate t;
     cameraListeners := cameraListeners t;
     optimize := EstimationError what |}.

(** Two cameras.  In the first tick, before any odometry, the first camera
    returns an observation of time 300 and the second one of time 100.  The
    odometry of the second tick has time 200, that of the third 400. *)
Definition twoCameras (front rear : Meas) (d : Twist) : list Tick :=
  [ idle [camera true [observation 300 front];
          camera true [observation 100 rear]];
    withOdometry [sample 200 d] (idle [camera true []; camera true []]);
    withOdometry [sample 400 d] (idle [camera true []; camera true []]) ].

(** One camera, ready, with nothing new. *)
Definition quiet : Tick := idle [camera true []].

Definition priorOf (x : Pose) (n : Noise) (at_time : Z) : TimestampedPrior :=
  {| value := {| pose := x; noise := n |}; time := at_time |}.

(** The members after a first tick that brings the prior [p]. *)
Definition initialised (p : TimestampedPrior) : LocalizerRunner :=
  runner (Update newRunner (withPrior p quiet)).

Definition noChange : ConfigListener :=
  {| priorChange := None; layoutChange := None |}.

Definition nothingPublished : Published :=
  {| newPrior := None; newLayout := None |}.

(** ** Reading the cameras and the backlog *)

(** What [cam.Update()] is asked for in a tick: nothing when the camera is
    not ready (line 113). *)
Definition pulledFrom (cam : CameraListener)
  : list CameraVisionObservation :=
  if ReadyToOptimize cam then cam_update cam else [].

(** The observations the cameras of a tick hand to the scheduler, in the
    order of [cameraListeners]. *)
Definition pulled (cams : list CameraListener)
  : list CameraVisionObservation :=
  flat_map pulledFrom cams.

(** The tests of lines 130 and 119 against a watermark [w]. *)
Definition eligible (w : N) (o : CameraVisionObservation) : bool :=
  (timeUs o <=? w)%N.

Definition newer (w : N) (o : CameraVisionObservation) : bool :=
  (w <? timeUs o)%N.


(** The entries at the front of a deque that may go under the watermark
    [w], up to the first one that may not, and the entries from that one
    on. *)
Fixpoint frontEligible (w : N) (l : list CameraVisionObservation)
  : list CameraVisionObservation :=
  match l with
  | [] => []
  | o :: l' => if eligible w o then o :: frontEligible w l' else []
  end.

Fixpoint afterFront (w : N) (l : list CameraVisionObservation)
  : list CameraVisionObservation :=
  match l with
  | [] => []
  | o :: l' => if eligible w o then afterFront w l' else l
  end.


(** The watermark a tick works with once its odometry is in. *)
Definition watermarkOf (r : LocalizerRunner) (t : Tick) : N :=
  runningMax (lastOdomTimestamp r) (map (@timeUs Twist) (odomUpdate t)).





(** One camera whose observations come in the order of their times.  First
    tick: odometry of times 100, 50 and 200, observations of times 180 and
    250.  Second tick: odometry of time 300, observations of times 280 and
    320. *)
Definition oneCamera (m : Meas) (d : Twist) : list Tick :=
  [ withOdometry [sample 100 d; sample 50 d; sample 200 d]
      (idle [camera true [observation 180 m; observation 250 m]]);
    withOdometry [sample 300 d]
      (idle [camera true [observation 280 m; observation 320 m]]) ].

(** ** Properties *)

Implicit Types (r : LocalizerRunner) (t : Tick) (evs : list Event).

(** *** Events of one kind *)

Lemma only_app k evs1 evs2 :
  only k evs1 -> only k evs2 -> only k (evs1 ++ evs2).
Proof. unfold only. intros H1 H2. apply Forall_app. split; assumption. Qed.

Lemma only_not_called k evs (c : Call) :
  only k evs -> kind c <> k -> ~ In c (calls evs).
Proof.
  unfold only, calls. intros Hk Hc Hin.
  apply in_map_iff in Hin. destruct Hin as [e [He Hin]].
  rewrite Forall_forall in Hk. specialize (Hk e Hin).
  rewrite He in Hk. contradiction.
Qed.

(** A list of events of kind [k] has nothing of another kind to show. *)
Ltac view_is_empty :=
  let e := fresh "e" in
  let He := fresh "He" in
  let IH := fresh "IH" in
  let Hk := fresh "Hk" in
  induction 1 as [|e ? He _ IH]; intros Hk; [reflexivity|];
  cbn [flat_map]; rewrite (IH Hk); destruct (call e); cbn in *; congruence.

Lemma only_referents k evs :
  only k evs -> k <> KAddTagObservation -> referents evs = [].
Proof.
  unfold only, referents. view_is_empty.
Qed.

Lemma only_tagObservations k evs :
  only k evs -> k <> KAddTagObservation -> tagObservations evs = [].
Proof.
  unfold only, tagObservations. view_is_empty.
Qed.

Lemma only_odometry k evs :
  only k evs -> k <> KAddOdometry -> odometry evs = [].
Proof.
  unfold only, odometry. view_is_empty.
Qed.

Lemma only_resets k evs :
  only k evs -> k <> KReset -> resets evs = [].
Proof.
  unfold only, resets. view_is_empty.
Qed.

Lemma only_admissible k evs :
  only k evs -> k <> KAddTagObservation -> Forall admissible evs.
Proof.
  unfold only. intros H Hk. eapply Forall_impl; [|exact H].
  intros e He. cbv beta in He. unfold admissible.
  destruct (call e); cbn in *; (exact I || congruence).
Qed.

Lemma referents_app evs1 evs2 :
  referents (evs1 ++ evs2) = referents evs1 ++ referents evs2.
Proof. apply flat_map_app. Qed.

Lemma tagObservations_app evs1 evs2 :
  tagObservations (evs1 ++ evs2)
  = tagObservations evs1 ++ tagObservations evs2.
Proof. apply flat_map_app. Qed.

Lemma referents_map evs :
  referents evs = map referent (tagObservations evs).
Proof.
  unfold referents, tagObservations.
  induction evs as [|e evs IH]; [reflexivity|].
  cbn [flat_map]. rewrite map_app, IH. now destruct (call e).
Qed.

Lemma odometry_app evs1 evs2 :
  odometry (evs1 ++ evs2) = odometry evs1 ++ odometry evs2.
Proof. apply flat_map_app. Qed.

Lemma resets_app evs1 evs2 :
  resets (evs1 ++ evs2) = resets evs1 ++ resets evs2.
Proof. apply flat_map_app. Qed.

Lemma calls_app evs1 evs2 : calls (evs1 ++ evs2) = calls evs1 ++ calls evs2.
Proof. apply map_app. Qed.

(** *** The watermark *)

Lemma watermark_max (w x : N) :
  (if (w <? x)%N then x else w) = N.max w x.
Proof.
  destruct (N.ltb_spec w x); [rewrite N.max_r | rewrite N.max_l]; lia.
Qed.

Lemma runningMax_le (ts : list N) : forall w, (w <= runningMax w ts)%N.
Proof.
  unfold runningMax. induction ts as [|x ts IH]; intros w; cbn; [lia|].
  specialize (IH (N.max w x)). lia.
Qed.

Lemma runningMax_app (w : N) (ts1 ts2 : list N) :
  runningMax w (ts1 ++ ts2) = runningMax (runningMax w ts1) ts2.
Proof. unfold runningMax. apply fold_left_app. Qed.

(** *** The blocks of [Update] *)

Lemma priorStep_members p r :
  gotInitialGuess (fst (priorStep p r))
    = match p with Some _ => true | None => gotInitialGuess r end
  /\ lastOdomTimestamp (fst (priorStep p r)) = lastOdomTimestamp r
  /\ tooNewCameraObservations (fst (priorStep p r))
     = tooNewCameraObservations r.
Proof.
  destruct p as [p|]; cbn; [|auto].
  destruct (gotInitialGuess r) eqn:E; cbn; auto.
Qed.

Lemma priorStep_events p r : only KReset (snd (priorStep p r)).
Proof.
  destruct p as [p|]; cbn; [|constructor].
  destruct (gotInitialGuess r); cbn; repeat constructor.
Qed.

Lemma layoutStep_members (l : option Layout) r :
  gotInitialGuess (fst (layoutStep l r))
    = match l with Some _ => false | None => gotInitialGuess r end
  /\ lastOdomTimestamp (fst (layoutStep l r)) = lastOdomTimestamp r
  /\ tooNewCameraObservations (fst (layoutStep l r))
     = tooNewCameraObservations r.
Proof. destruct l; cbn; auto. Qed.

Lemma layoutStep_events (l : option Layout) r :
  only KSetLayout (snd (layoutStep l r)).
Proof. destruct l; cbn; repeat constructor. Qed.

Lemma odomLoop_members (samples : list OdometryObservation) :
  forall r,
    gotInitialGuess (fst (odomLoop samples r)) = gotInitialGuess r
    /\ lastOdomTimestamp (fst (odomLoop samples r))
       = runningMax (lastOdomTimestamp r) (map (@timeUs _) samples)
    /\ tooNewCameraObservations (fst (odomLoop samples r))
       = tooNewCameraObservations r.
Proof.
  induction samples as [|it rest IH]; intros r; [cbn; auto|].
  cbn [odomLoop]. rewrite watermark_max.
  specialize
    (IH (set_lastOdomTimestamp
           (N.max (lastOdomTimestamp r) (timeUs it)) r)).
  destruct (odomLoop rest _) as [r' evs]. cbn in IH |- *. exact IH.
Qed.

Lemma odomLoop_events (samples : list OdometryObservation) :
  forall r,
    only KAddOdometry (snd (odomLoop samples r))
    /\ odometry (snd (odomLoop samples r)) = samples.
Proof.
  induction samples as [|it rest IH]; intros r.
  - split; [constructor | reflexivity].
  - cbn [odomLoop]. rewrite watermark_max.
    specialize
      (IH (set_lastOdomTimestamp
             (N.max (lastOdomTimestamp r) (timeUs it)) r)).
    destruct (odomLoop rest _) as [r' evs]. cbn [snd] in IH |- *.
    destruct IH as [Hk Ho]. split.
    + constructor; [reflexivity | exact Hk].
    + unfold odometry in *. cbn. now rewrite Ho.
Qed.

Lemma deliveries_nil w : deliveries w [].
Proof. repeat split; constructor. Qed.

Lemma deliveries_cons w r (x : Reference) evs :
  lastOdomTimestamp r = w -> (timeUs (referent x) <= w)%N ->
  deliveries w evs -> deliveries w (record r (AddTagObservation x) :: evs).
Proof.
  intros Hw Ho (Hk & Ha & Hs). repeat split; constructor; trivial.
  unfold admissible. destruct x; cbn in *; [lia | exact I].
Qed.

Lemma deliveries_app w evs1 evs2 :
  deliveries w evs1 -> deliveries w evs2 -> deliveries w (evs1 ++ evs2).
Proof.
  intros (Hk1 & Ha1 & Hs1) (Hk2 & Ha2 & Hs2).
  repeat split; apply Forall_app; split; assumption.
Qed.

Lemma camUpdateLoop_members (obs : list CameraVisionObservation) :
  forall r,
    gotInitialGuess (fst (camUpdateLoop obs r)) = gotInitialGuess r
    /\ lastOdomTimestamp (fst (camUpdateLoop obs r)) = lastOdomTimestamp r
    /\ tooNewCameraObservations (fst (camUpdateLoop obs r))
       = tooNewCameraObservations r
         ++ filter (fun o => (lastOdomTimestamp r <? timeUs o)%N) obs.
Proof.
  induction obs as [|it rest IH]; intros r.
  - cbn. rewrite app_nil_r. auto.
  - cbn [camUpdateLoop filter].
    destruct (lastOdomTimestamp r <? timeUs it)%N eqn:E.
    + destruct (IH (push_back it r)) as (Hg & Hw & Hq).
      rewrite Hg, Hw, Hq. cbn. rewrite <- app_assoc. auto.
    + specialize (IH r). destruct (camUpdateLoop rest r) as [r' evs].
      exact IH.
Qed.

Lemma camUpdateLoop_events (obs : list CameraVisionObservation) :
  forall r,
    deliveries (lastOdomTimestamp r) (snd (camUpdateLoop obs r))
    /\ referents (snd (camUpdateLoop obs r))
       = filter (fun o => (timeUs o <=? lastOdomTimestamp r)%N) obs.
Proof.
  induction obs as [|it rest IH]; intros r.
  - split; [apply deliveries_nil | reflexivity].
  - cbn [camUpdateLoop filter].
    destruct (N.ltb_spec (lastOdomTimestamp r) (timeUs it)) as [Hlt|Hle].
    + replace (timeUs it <=? lastOdomTimestamp r)%N with false
        by (symmetry; apply N.leb_gt; exact Hlt).
      exact (IH (push_back it r)).
    + replace (timeUs it <=? lastOdomTimestamp r)%N with true
        by (symmetry; apply N.leb_le; exact Hle).
      specialize (IH r). destruct (camUpdateLoop rest r) as [r' evs].
      cbn [snd] in IH |- *. destruct IH as [Hd Ht]. split.
      * apply deliveries_cons; trivial.
      * unfold referents in *. cbn. now rewrite Ht.
Qed.

(** Fresh observations are passed alive. *)
Lemma camUpdateLoop_refs (obs : list CameraVisionObservation) :
  forall r,
    tagObservations (snd (camUpdateLoop obs r))
    = map Live (filter (fun o => (timeUs o <=? lastOdomTimestamp r)%N) obs).
Proof.
  induction obs as [|it rest IH]; intros r; [reflexivity|].
  cbn [camUpdateLoop filter].
  destruct (N.ltb_spec (lastOdomTimestamp r) (timeUs it)) as [Hlt|Hle].
  - replace (timeUs it <=? lastOdomTimestamp r)%N with false
      by (symmetry; apply N.leb_gt; exact Hlt).
    exact (IH (push_back it r)).
  - replace (timeUs it <=? lastOdomTimestamp r)%N with true
      by (symmetry; apply N.leb_le; exact Hle).
    specialize (IH r). destruct (camUpdateLoop rest r) as [r' evs].
    cbn [snd] in IH |- *. unfold tagObservations in *. cbn.
    now rewrite IH.
Qed.

Lemma skipn_tl (A : Type) (n : nat) (q : list A) :
  skipn n (tl q) = skipn (S n) q.
Proof. destruct q; cbn; [apply skipn_nil | reflexivity]. Qed.

(** What the loop over the backlog does: it makes a call for each entry
    that is not newer than the watermark, in order, and drops as many
    entries from the front of the deque. *)
Lemma backlogLoop_members (range : list CameraVisionObservation) :
  forall (ahead : nat) r,
    gotInitialGuess (fst (backlogLoop range ahead r)) = gotInitialGuess r
    /\ lastOdomTimestamp (fst (backlogLoop range ahead r))
       = lastOdomTimestamp r
    /\ tooNewCameraObservations (fst (backlogLoop range ahead r))
       = skipn
           (List.length
              (filter (fun o => (timeUs o <=? lastOdomTimestamp r)%N) range))
           (tooNewCameraObservations r).
Proof.
  induction range as [|it rest IH]; intros ahead r; [cbn; auto|].
  cbn [backlogLoop filter].
  destruct (timeUs it <=? lastOdomTimestamp r)%N eqn:E.
  - specialize (IH ahead (pop_front r)).
    destruct (backlogLoop rest ahead (pop_front r)) as [r' evs].
    cbn [fst pop_front lastOdomTimestamp gotInitialGuess
         tooNewCameraObservations List.length] in IH |- *.
    rewrite skipn_tl in IH. exact IH.
  - apply IH.
Qed.

Lemma backlogLoop_events (range : list CameraVisionObservation) :
  forall (ahead : nat) r,
    deliveries (lastOdomTimestamp r) (snd (backlogLoop range ahead r))
    /\ referents (snd (backlogLoop range ahead r))
       = filter (fun o => (timeUs o <=? lastOdomTimestamp r)%N) range.
Proof.
  induction range as [|it rest IH]; intros ahead r.
  - split; [apply deliveries_nil | reflexivity].
  - cbn [backlogLoop filter].
    destruct (N.leb_spec (timeUs it) (lastOdomTimestamp r)) as [Hle|Hgt].
    + specialize (IH ahead (pop_front r)).
      destruct (backlogLoop rest ahead (pop_front r)) as [r' evs].
      cbn [snd pop_front lastOdomTimestamp] in IH |- *.
      destruct IH as [Hd Ht]. split.
      * apply deliveries_cons; trivial.
        destruct (Nat.eqb ahead 0); exact Hle.
      * unfold referents in *. cbn [flat_map call record].
        rewrite Ht. destruct (Nat.eqb ahead 0); reflexivity.
    + apply IH.
Qed.

Lemma cameraStep_spec (cam : CameraListener) r :
  gotInitialGuess (fst (cameraStep cam r)) = gotInitialGuess r
  /\ lastOdomTimestamp (fst (cameraStep cam r)) = lastOdomTimestamp r
  /\ deliveries (lastOdomTimestamp r) (snd (cameraStep cam r)).
Proof.
  unfold cameraStep.
  assert (H1 : exists r1 fresh,
             (if ReadyToOptimize cam then camUpdateLoop (cam_update cam) r
              else (r, [])) = (r1, fresh)
             /\ gotInitialGuess r1 = gotInitialGuess r
             /\ lastOdomTimestamp r1 = lastOdomTimestamp r
             /\ deliveries (lastOdomTimestamp r) fresh).
  { destruct (ReadyToOptimize cam).
    - destruct (camUpdateLoop_members (cam_update cam) r) as (Hg & Hw & _).
      destruct (camUpdateLoop_events (cam_update cam) r) as [Hd _].
      destruct (camUpdateLoop (cam_update cam) r) as [r1 fresh].
      exists r1, fresh. auto.
    - exists r, []. repeat split; constructor. }
  destruct H1 as (r1 & fresh & -> & Hg & Hw & Hd).
  destruct (backlogLoop_members (tooNewCameraObservations r1) 0 r1)
    as (Hg2 & Hw2 & _).
  destruct (backlogLoop_events (tooNewCameraObservations r1) 0 r1) as [Hd2 _].
  destruct (backlogLoop (tooNewCameraObservations r1) 0 r1) as [r2 replayed].
  cbn [fst snd] in *. rewrite Hw in Hd2.
  repeat split; try congruence; apply Forall_app; split;
    first [apply Hd | apply Hd2].
Qed.

Lemma cameraLoop_spec (cams : list CameraListener) :
  forall (b : bool) r,
    fst (fst (cameraLoop cams b r)) = b && forallb ReadyToOptimize cams
    /\ gotInitialGuess (snd (fst (cameraLoop cams b r))) = gotInitialGuess r
    /\ lastOdomTimestamp (snd (fst (cameraLoop cams b r)))
       = lastOdomTimestamp r
    /\ deliveries (lastOdomTimestamp r) (snd (cameraLoop cams b r)).
Proof.
  induction cams as [|cam rest IH]; intros b r.
  - cbn. rewrite andb_true_r. repeat split; constructor.
  - cbn [cameraLoop forallb].
    destruct (cameraStep_spec cam r) as (Hg & Hw & Hd).
    destruct (cameraStep cam r) as [r1 evs1]. cbn [fst snd] in Hg, Hw, Hd.
    specialize (IH (b && ReadyToOptimize cam) r1).
    destruct (cameraLoop rest (b && ReadyToOptimize cam) r1)
      as [[b' r2] evs2].
    cbn [fst snd] in IH |- *. destruct IH as (Hb & Hg2 & Hw2 & Hd2).
    rewrite Hw in Hd2. rewrite andb_assoc.
    split; [exact Hb|]. split; [congruence|]. split; [congruence|].
    apply deliveries_app; assumption.
Qed.

(** *** One call of [Update] *)

Lemma Update_unfold r t :
  runner (Update r t) = snd (fst (gather r t))
  /\ events (Update r t)
     = snd (gather r t)
       ++ fst (optimizeStep (readyToOptimize r t) (optimize t)
                 (snd (fst (gather r t))))
  /\ outcome (Update r t)
     = snd (optimizeStep (readyToOptimize r t) (optimize t)
              (snd (fst (gather r t)))).
Proof.
  unfold Update, readyToOptimize.
  destruct (gather r t) as [[b r'] evs]. cbn [fst snd].
  destruct (optimizeStep b (optimize t) r') as [last out]. auto.
Qed.

Lemma gather_spec r t :
  let r' := snd (fst (gather r t)) in
  gotInitialGuess r'
    = match layout t, prior t with
      | Some _, _ => false
      | None, Some _ => true
      | None, None => gotInitialGuess r
      end
  /\ lastOdomTimestamp r'
     = runningMax (lastOdomTimestamp r) (map (@timeUs _) (odomUpdate t))
  /\ readyToOptimize r t
     = gotInitialGuess r' && forallb ReadyToOptimize (cameraListeners t)
  /\ exists e3 e4,
       snd (gather r t)
       = snd (priorStep (prior t) r)
         ++ snd (layoutStep (layout t) (fst (priorStep (prior t) r)))
         ++ e3 ++ e4
       /\ only KAddOdometry e3
       /\ odometry e3 = odomUpdate t
       /\ deliveries (lastOdomTimestamp r') e4.
Proof.
  unfold readyToOptimize, gather.
  destruct (priorStep_members (prior t) r) as (Hg1 & Hw1 & _).
  destruct (priorStep (prior t) r) as [r1 e1]. cbn [fst snd] in *.
  destruct (layoutStep_members (layout t) r1) as (Hg2 & Hw2 & _).
  destruct (layoutStep (layout t) r1) as [r2 e2]. cbn [fst snd] in *.
  destruct (odomLoop_members (odomUpdate t) r2) as (Hg3 & Hw3 & _).
  destruct (odomLoop_events (odomUpdate t) r2) as (Hk3 & Ho3).
  destruct (odomLoop (odomUpdate t) r2) as [r3 e3]. cbn [fst snd] in *.
  destruct (cameraLoop_spec (cameraListeners t)
              (true && gotInitialGuess r2) r3) as (Hb & Hg4 & Hw4 & Hd4).
  destruct (cameraLoop (cameraListeners t) (true && gotInitialGuess r2) r3)
    as [[b r4] e4]. cbn [fst snd] in *.
  assert (Hg : gotInitialGuess r4 = gotInitialGuess r2) by congruence.
  split; [|split; [|split]].
  - rewrite Hg, Hg2, Hg1. destruct (layout t), (prior t); reflexivity.
  - congruence.
  - rewrite Hb, Hg. reflexivity.
  - exists e3, e4. rewrite Hw4. auto.
Qed.

Lemma Update_members r t :
  gotInitialGuess (runner (Update r t))
    = match layout t, prior t with
      | Some _, _ => false
      | None, Some _ => true
      | None, None => gotInitialGuess r
      end
  /\ lastOdomTimestamp (runner (Update r t))
     = runningMax (lastOdomTimestamp r) (map (@timeUs _) (odomUpdate t))
  /\ readyToOptimize r t
     = gotInitialGuess (runner (Update r t))
       && forallb ReadyToOptimize (cameraListeners t).
Proof.
  destruct (Update_unfold r t) as (-> & _ & _).
  destruct (gather_spec r t) as (Hg & Hw & Hb & _). auto.
Qed.

(** The calls made before line 138 are, in this order: at most one
    [Reset], at most one [SetLayout], the odometry, the observations. *)
Lemma gather_events r t :
  exists e1 e2 e3 e4,
    snd (gather r t) = e1 ++ e2 ++ e3 ++ e4
    /\ only KReset e1 /\ only KSetLayout e2 /\ only KAddOdometry e3
    /\ only KAddTagObservation e4.
Proof.
  destruct (gather_spec r t) as (_ & _ & _ & e3 & e4 & He & Hk3 & _ & Hd).
  exists (snd (priorStep (prior t) r)),
    (snd (layoutStep (layout t) (fst (priorStep (prior t) r)))), e3, e4.
  split; [exact He|].
  split; [apply priorStep_events|]. split; [apply layoutStep_events|].
  split; [exact Hk3 | apply Hd].
Qed.

Lemma gather_not_called r t (c : Call) :
  kind c <> KReset -> kind c <> KSetLayout -> kind c <> KAddOdometry ->
  kind c <> KAddTagObservation -> ~ In c (calls (snd (gather r t))).
Proof.
  intros H1 H2 H3 H4.
  destruct (gather_events r t) as (e1 & e2 & e3 & e4 & -> & K1 & K2 & K3 & K4).
  rewrite !calls_app, !in_app_iff.
  intros [H|[H|[H|H]]]; revert H; eapply only_not_called; eassumption.
Qed.

(** The call is neither among the calls made before line 138 nor among
    the few that follow. *)
Ltac not_called :=
  let H := fresh "H" in
  rewrite calls_app, in_app_iff; intros [H|H];
  [ revert H; apply gather_not_called; discriminate
  | cbn in H; intuition discriminate ].

Lemma optimizeStep_events (b : bool) (res : OptimizeResult) r :
  Forall admissible (fst (optimizeStep b res r))
  /\ referents (fst (optimizeStep b res r)) = []
  /\ odometry (fst (optimizeStep b res r)) = []
  /\ resets (fst (optimizeStep b res r)) = [].
Proof.
  unfold optimizeStep. destruct b, res; cbn; repeat split;
    repeat constructor.
Qed.

(** *** The claims *)

(** C2, on the code.  The run [oneCamera]: the observation of time 250
    arrives while the watermark is 200 and is buffered; the odometry of the
    next tick brings the watermark to 300.  The loop over the backlog then
    finds that entry at the front, pops it at line 132 and calls
    [AddTagObservation] at line 133 with the reference to the element it
    has just destroyed, so what the estimator reads, its [timeUs]
    included, is not defined and is not bound by the watermark.  What does
    hold, in every call of [Update] from any state: an observation passed
    through a live reference, be it fresh from a camera or taken from
    further back in the backlog, is never newer than [lastOdomTimestamp] at
    the moment of the call. *)
Theorem replay_passes_a_destroyed_observation (m : Meas) (d : Twist) :
  deliveredPerTick newRunner (oneCamera m d)
  = [ [Live (observation 180 m)];
      [Live (observation 280 m); Destroyed (observation 250 m)] ]
  /\ forall r t, Forall admissible (events (Update r t)).
Proof.
  split; [reflexivity|]. intros r t.
  destruct (Update_unfold r t) as (_ & -> & _).
  destruct (gather_spec r t) as (_ & _ & _ & e3 & e4 & -> & Hk3 & _ & Hd).
  destruct (optimizeStep_events (readyToOptimize r t) (optimize t)
              (snd (fst (gather r t)))) as (Ha5 & _ & _ & _).
  repeat (apply Forall_app; split); trivial.
  - eapply only_admissible; [apply priorStep_events | discriminate].
  - eapply only_admissible; [apply layoutStep_events | discriminate].
  - eapply only_admissible; [exact Hk3 | discriminate].
  - apply Hd.
Qed.

(** C8. Every sample the odometry listener returns is handed to
    [AddOdometry], in the order received and nothing else is: whatever the
    state of the runner, the prior, the layout, the cameras, the outcome of
    [Optimize] and the time of the sample. *)
Theorem odometry_always_forwarded r t :
  odometry (events (Update r t)) = odomUpdate t.
Proof.
  destruct (Update_unfold r t) as (_ & -> & _).
  destruct (gather_spec r t) as (_ & _ & _ & e3 & e4 & -> & Hk3 & Ho & Hd).
  destruct (optimizeStep_events (readyToOptimize r t) (optimize t)
              (snd (fst (gather r t)))) as (_ & _ & Ho5 & _).
  rewrite !odometry_app, Ho5, Ho, app_nil_r.
  rewrite (only_odometry (priorStep_events (prior t) r)) by discriminate.
  rewrite (only_odometry
             (layoutStep_events (layout t) (fst (priorStep (prior t) r))))
    by discriminate.
  destruct Hd as (Hk4 & _ & _).
  rewrite (only_odometry Hk4) by discriminate.
  cbn [app]. apply app_nil_r.
Qed.

Lemma mainLoop_nth (ticks : list Tick) :
  forall r n rn tn,
    nth_error (mainLoop r ticks) n = Some (rn, tn) ->
    nth_error ticks n = Some tn
    /\ lastOdomTimestamp rn
       = runningMax (lastOdomTimestamp r) (sampleTimes (firstn n ticks)).
Proof.
  induction ticks as [|t rest IH]; intros r n rn tn H.
  - destruct n; discriminate H.
  - cbn [mainLoop] in H. destruct n as [|n].
    + cbn in H. injection H as -> ->. split; reflexivity.
    + cbn [nth_error] in H. destruct (outcome (Update r t)).
      * apply IH in H. destruct H as [Ht Hw]. split; [exact Ht|].
        rewrite Hw. destruct (Update_members r t) as (_ & -> & _).
        cbn [firstn]. unfold sampleTimes. cbn [flat_map].
        now rewrite runningMax_app.
      * destruct n; discriminate H.
Qed.

(** C4. Over any run of the loop, for the [n]-th call of [Update] that is
    made: the watermark it starts from is the maximum of the initial value
    and the [timeUs] of every odometry sample of the earlier ticks, the
    watermark it leaves is that maximum with the samples of this tick
    added, and neither is below what came before.  Within one pull the
    samples may come in any order: the watermark after a part of them is
    never above the watermark after more of them. *)
Theorem watermark_is_running_maximum r (ticks : list Tick) n rn tn :
  nth_error (mainLoop r ticks) n = Some (rn, tn) ->
  lastOdomTimestamp rn
    = runningMax (lastOdomTimestamp r) (sampleTimes (firstn n ticks))
  /\ lastOdomTimestamp (runner (Update rn tn))
     = runningMax (lastOdomTimestamp r) (sampleTimes (firstn (S n) ticks))
  /\ (lastOdomTimestamp r <= lastOdomTimestamp rn)%N
  /\ (lastOdomTimestamp rn <= lastOdomTimestamp (runner (Update rn tn)))%N
  /\ (forall (seen more : list OdometryObservation) r0,
        (lastOdomTimestamp (fst (odomLoop seen r0))
         <= lastOdomTimestamp (fst (odomLoop (seen ++ more) r0)))%N).
Proof.
  intros H. destruct (mainLoop_nth _ _ _ H) as [Ht Hw].
  destruct (Update_members rn tn) as (_ & Hu & _).
  split; [exact Hw|]. split; [|split; [|split]].
  - rewrite Hu, Hw.
    assert (Hs : firstn (S n) ticks = firstn n ticks ++ [tn]).
    { clear - Ht. revert ticks Ht.
      induction n as [|n IH]; intros [|t ticks] Ht; try discriminate Ht.
      - cbn in Ht. injection Ht as ->. reflexivity.
      - cbn [nth_error] in Ht. cbn [firstn]. rewrite (IH _ Ht) at 1.
        reflexivity. }
    rewrite Hs. unfold sampleTimes.
    rewrite flat_map_app, runningMax_app. cbn [flat_map].
    now rewrite app_nil_r.
  - rewrite Hw. apply runningMax_le.
  - rewrite Hu. apply runningMax_le.
  - intros seen more r0.
    destruct (odomLoop_members (seen ++ more) r0) as (_ & -> & _).
    destruct (odomLoop_members seen r0) as (_ & -> & _).
    rewrite map_app, runningMax_app. apply runningMax_le.
Qed.

(** C5. In every call of [Update], [readyToOptimize] at line 138 is
    [gotInitialGuess], as the prior and the layout of this tick left it,
    and-ed with the readiness of every camera.  When it is true [Optimize]
    is called and there is no wait; when it is false neither [Optimize] nor
    the publisher is called, the last thing [Update] does is the wait of
    1000 ms, and it returns. *)
Theorem optimize_and_publish_only_when_ready r t :
  readyToOptimize r t
    = gotInitialGuess (runner (Update r t))
      && forallb ReadyToOptimize (cameraListeners t)
  /\ if readyToOptimize r t
     then In Optimize (calls (events (Update r t)))
          /\ ~ In (sleep_for 1000) (calls (events (Update r t)))
     else ~ In Optimize (calls (events (Update r t)))
          /\ ~ In DataPublisherUpdate (calls (events (Update r t)))
          /\ (exists pre,
                events (Update r t)
                = pre ++ [record (runner (Update r t)) (sleep_for 1000)])
          /\ outcome (Update r t) = Returned.
Proof.
  destruct (Update_members r t) as (_ & _ & Hb). split; [exact Hb|].
  destruct (Update_unfold r t) as (Hr & He & Ho). rewrite Hr, He, Ho.
  unfold optimizeStep. destruct (readyToOptimize r t); cbn [negb fst snd].
  - split.
    + rewrite calls_app, in_app_iff. right.
      destruct (optimize t); cbn; auto.
    + destruct (optimize t); not_called.
  - repeat split; try not_called. eexists. reflexivity.
Qed.

(** C6. When [Update] reaches [Optimize] and [Optimize] fails, [Optimize]
    was called once, the dump [Print] is the last call, neither the
    publisher nor the flush is called, the failure leaves [Update], and the
    loop of [main] makes no further call of [Update]. *)
Theorem failed_optimize_is_not_published r t what :
  readyToOptimize r t = true ->
  optimize t = EstimationError what ->
  outcome (Update r t) = Threw
  /\ ~ In DataPublisherUpdate (calls (events (Update r t)))
  /\ ~ In Flush (calls (events (Update r t)))
  /\ (exists pre,
        events (Update r t)
        = pre ++ [record (runner (Update r t)) Optimize;
                  record (runner (Update r t)) Print]
        /\ ~ In Optimize (calls pre))
  /\ forall rest, mainLoop r (t :: rest) = [(r, t)].
Proof.
  intros Hb Hf.
  assert (Hout : outcome (Update r t) = Threw).
  { destruct (Update_unfold r t) as (_ & _ & ->).
    rewrite Hb, Hf. reflexivity. }
  destruct (Update_unfold r t) as (Hr & He & _). rewrite Hr, He, Hb, Hf.
  cbn [optimizeStep negb fst].
  split; [exact Hout|]. split; [|split; [|split]].
  - not_called.
  - not_called.
  - eexists. split; [reflexivity|].
    apply gather_not_called; discriminate.
  - intros rest. cbn [mainLoop]. rewrite Hout. reflexivity.
Qed.

Lemma Update_resets r t :
  resets (events (Update r t))
    = match prior t with
      | Some p =>
          if gotInitialGuess r then []
          else [(pose (value p), noise (value p), time p)]
      | None => []
      end.
Proof.
  destruct (Update_unfold r t) as (_ & -> & _).
  destruct (gather_spec r t) as (_ & _ & _ & e3 & e4 & -> & Hk3 & _ & Hd).
  destruct (optimizeStep_events (readyToOptimize r t) (optimize t)
              (snd (fst (gather r t)))) as (_ & _ & _ & Hr5).
  destruct Hd as (Hk4 & _ & _).
  rewrite !resets_app, Hr5.
  rewrite (only_resets
             (layoutStep_events (layout t) (fst (priorStep (prior t) r))))
    by discriminate.
  rewrite (only_resets Hk3), (only_resets Hk4) by discriminate.
  cbn [app]. rewrite app_nil_r.
  destruct (prior t) as [p|]; cbn; [|reflexivity].
  destruct (gotInitialGuess r); reflexivity.
Qed.

(** C3, as the code has it.  A new prior is applied only while
    [gotInitialGuess] is false: then [Reset] is called once in that tick,
    with the pose, the noise and the time of that prior, and
    [gotInitialGuess] becomes true at that point.  A prior that arrives
    while [gotInitialGuess] is true is consumed without any [Reset], and a
    tick without a new prior calls no [Reset]. *)
Theorem prior_applied_only_without_initial_guess r t :
  resets (events (Update r t))
    = match prior t with
      | Some p =>
          if gotInitialGuess r then []
          else [(pose (value p), noise (value p), time p)]
      | None => []
      end
  /\ (forall p, gotInitialGuess (fst (priorStep (Some p) r)) = true)
  /\ gotInitialGuess (runner (Update r t))
     = match layout t, prior t with
       | Some _, _ => false
       | None, Some _ => true
       | None, None => gotInitialGuess r
       end.
Proof.
  split; [apply Update_resets|]. split.
  - intros p. destruct (priorStep_members (Some p) r) as (H & _). exact H.
  - apply Update_members.
Qed.

Lemma not_ready_returns r t :
  readyToOptimize r t = false -> outcome (Update r t) = Returned.
Proof.
  intros Hb. destruct (Update_unfold r t) as (_ & _ & ->).
  rewrite Hb. reflexivity.
Qed.

Lemma Update_without_guess r t :
  gotInitialGuess r = false -> prior t = None ->
  readyToOptimize r t = false
  /\ gotInitialGuess (runner (Update r t)) = false
  /\ outcome (Update r t) = Returned.
Proof.
  intros Hg Hp. destruct (Update_members r t) as (Hg' & _ & Hb).
  rewrite Hp, Hg in Hg'.
  assert (Hg2 : gotInitialGuess (runner (Update r t)) = false)
    by (rewrite Hg'; destruct (layout t); reflexivity).
  rewrite Hg2 in Hb. cbn in Hb. auto using not_ready_returns.
Qed.

Lemma no_prior_applied r t :
  gotInitialGuess r = false -> appliesPrior (r, t) = false -> prior t = None.
Proof.
  unfold appliesPrior. cbn [fst snd]. rewrite Update_resets. intros ->.
  destruct (prior t); [discriminate | reflexivity].
Qed.

Lemma blocked_without_prior (ticks : list Tick) :
  forall r n rn tn,
    gotInitialGuess r = false ->
    nth_error (mainLoop r ticks) n = Some (rn, tn) ->
    existsb appliesPrior (firstn (S n) (mainLoop r ticks)) = false ->
    readyToOptimize rn tn = false
    /\ gotInitialGuess (runner (Update rn tn)) = false.
Proof.
  induction ticks as [|t rest IH]; intros r n rn tn Hg Hn Hq.
  - destruct n; discriminate Hn.
  - cbn [mainLoop] in Hn, Hq. cbn [firstn existsb] in Hq.
    apply orb_false_iff in Hq. destruct Hq as [Hq1 Hq2].
    destruct (Update_without_guess r t Hg (no_prior_applied _ _ Hg Hq1))
      as (Hb & Hg' & Ho).
    destruct n as [|n].
    + cbn in Hn. injection Hn as <- <-. auto.
    + rewrite Ho in Hn, Hq2. cbn [nth_error] in Hn.
      exact (IH _ _ _ _ Hg' Hn Hq2).
Qed.

(** C7. Take any run of the loop whose first tick installs a new layout,
    from any state of the runner (also one that was ready).  On that tick
    and on every later tick of the run up to which no prior has been
    applied to the estimator since, [readyToOptimize] is false at line 138
    and [gotInitialGuess] is false when [Update] ends. *)
Theorem new_layout_blocks_until_prior r t (l : Layout) (rest : list Tick)
  n rn tn :
  layout t = Some l ->
  nth_error (mainLoop r (t :: rest)) n = Some (rn, tn) ->
  existsb appliesPrior (firstn n (tl (mainLoop r (t :: rest)))) = false ->
  readyToOptimize rn tn = false
  /\ gotInitialGuess (runner (Update rn tn)) = false.
Proof.
  intros Hl Hn Hq.
  destruct (Update_members r t) as (Hg & _ & Hb).
  rewrite Hl in Hg. rewrite Hg in Hb. cbn in Hb.
  pose proof (not_ready_returns _ _ Hb) as Ho.
  cbn [mainLoop] in Hn, Hq. rewrite Ho in Hn, Hq. cbn [tl] in Hq.
  destruct n as [|n].
  - cbn in Hn. injection Hn as <- <-. auto.
  - cbn [nth_error] in Hn. exact (blocked_without_prior _ _ _ Hg Hn Hq).
Qed.

Lemma prior_then_layout r t p (l : Layout) :
  prior t = Some p -> layout t = Some l ->
  (exists rest,
      events (Update r t)
      = (if gotInitialGuess r then []
         else [record r (Reset (pose (value p)) (noise (value p)) (time p))])
        ++ record r (SetLayout l) :: rest
      /\ resets rest = [])
  /\ gotInitialGuess (runner (Update r t)) = false
  /\ readyToOptimize r t = false.
Proof.
  intros Hp Hl.
  destruct (Update_members r t) as (Hg & _ & Hb).
  rewrite Hl in Hg. rewrite Hg in Hb. cbn in Hb.
  split; [|auto].
  destruct (Update_unfold r t) as (_ & -> & _).
  destruct (gather_spec r t) as (_ & _ & _ & e3 & e4 & -> & Hk3 & _ & Hd).
  destruct (optimizeStep_events (readyToOptimize r t) (optimize t)
              (snd (fst (gather r t)))) as (_ & _ & _ & Hr5).
  destruct Hd as (Hk4 & _ & _).
  exists (e3 ++ e4
          ++ fst (optimizeStep (readyToOptimize r t) (optimize t)
                    (snd (fst (gather r t))))).
  split.
  - destruct (priorStep_members (prior t) r) as (_ & Hw & _).
    rewrite Hl. cbn [layoutStep snd]. unfold record at 1. rewrite Hw.
    rewrite Hp. cbn [priorStep].
    destruct (gotInitialGuess r); cbn [negb snd app];
      rewrite <- !app_assoc; reflexivity.
  - rewrite !resets_app, Hr5.
    rewrite (only_resets Hk3), (only_resets Hk4) by discriminate.
    reflexivity.
Qed.

Lemma listen_without_new_prior (feed : list (Published * Tick)) :
  forall cl,
    priorChange cl = None ->
    Forall (fun x => newPrior (fst x) = None) feed ->
    Forall (fun t => prior t = None) (listen cl feed).
Proof.
  induction feed as [|[pub t] rest IH]; intros cl Hc Hf; cbn [listen].
  - constructor.
  - inversion Hf as [|? ? Hpub Hrest]; subst. cbn [fst] in Hpub.
    unfold askConfig, NewPosePrior, NewTagLayout, publish.
    cbn [priorChange layoutChange]. rewrite Hpub, Hc.
    constructor; [reflexivity|]. apply IH; [reflexivity | exact Hrest].
Qed.

Lemma quiet_ticks_not_ready (ticks : list Tick) :
  forall r,
    gotInitialGuess r = false ->
    Forall (fun t => prior t = None) ticks ->
    Forall (fun x => readyToOptimize (fst x) (snd x) = false)
      (mainLoop r ticks)
    /\ List.length (mainLoop r ticks) = List.length ticks.
Proof.
  induction ticks as [|t rest IH]; intros r Hg Hq; cbn [mainLoop].
  - split; [constructor | reflexivity].
  - inversion Hq as [|? ? Hp Hrest]; subst.
    destruct (Update_without_guess r t Hg Hp) as (Hb & Hg' & Ho).
    rewrite Ho. destruct (IH _ Hg' Hrest) as [Hall Hlen].
    split; [constructor; assumption | cbn; now rewrite Hlen].
Qed.

(** C10.  A prior [p] and a layout [l] are both published before a tick,
    and no further prior is published before the ticks that follow.  In
    the first tick the listener hands out both.  [Update] handles the prior
    first: [Reset] with [p] is called if [gotInitialGuess] was false and
    not otherwise; then comes [SetLayout]; no [Reset] follows, and
    [gotInitialGuess] is false when [Update] ends.  The listener hands [p]
    out once: the prior of every later tick is empty, every call of
    [Update] in the run finds [readyToOptimize] false at line 138, and all
    the ticks are run. *)
Theorem prior_consumed_before_layout (cl : ConfigListener) r p (l : Layout)
  t0 (feed : list (Published * Tick)) :
  Forall (fun x => newPrior (fst x) = None) feed ->
  exists t later,
    listen cl (({| newPrior := Some p; newLayout := Some l |}, t0) :: feed)
    = t :: later
    /\ prior t = Some p /\ layout t = Some l
    /\ (exists rest,
          events (Update r t)
          = (if gotInitialGuess r then []
             else [record r
                     (Reset (pose (value p)) (noise (value p)) (time p))])
            ++ record r (SetLayout l) :: rest
          /\ resets rest = [])
    /\ gotInitialGuess (runner (Update r t)) = false
    /\ Forall (fun t' => prior t' = None) later
    /\ Forall (fun x => readyToOptimize (fst x) (snd x) = false)
         (mainLoop r (t :: later))
    /\ List.length (mainLoop r (t :: later)) = S (List.length later).
Proof.
  intros Hf. cbn [listen].
  unfold askConfig, NewPosePrior, NewTagLayout, publish.
  cbn [priorChange layoutChange newPrior newLayout].
  eexists. eexists. split; [reflexivity|].
  split; [reflexivity|]. split; [reflexivity|].
  match goal with
  | |- context [Update r ?t] =>
      destruct (@prior_then_layout r t p l eq_refl eq_refl) as (He & Hg & Hb)
  end.
  split; [exact He|]. split; [exact Hg|].
  pose proof (@listen_without_new_prior feed
                {| priorChange := None; layoutChange := None |}
                eq_refl Hf) as Hq.
  split; [exact Hq|].
  cbn [mainLoop]. rewrite (not_ready_returns _ _ Hb).
  destruct (@quiet_ticks_not_ready _ _ Hg Hq) as [Hall Hlen].
  split; [constructor; assumption | cbn; now rewrite Hlen].
Qed.

(** C9.  With the name of the program alone [main] loads the default path
    and enters the loop; with one argument after it, it loads that path and
    enters the loop; with any other number of arguments it prints the
    complaint, loads nothing, makes no call of [Update] and returns -1,
    which is not zero. *)
Theorem main_arguments (ticks : list Tick) :
  (forall prog,
      main [prog] ticks = startLoop "test/resources/simulator.json" ticks)
  /\ (forall prog path, main [prog; path] ticks = startLoop path ticks)
  /\ (forall path,
        configPath (startLoop path ticks) = Some path
        /\ updates (startLoop path ticks) = mainLoop newRunner ticks
        /\ returned (startLoop path ticks) = None)
  /\ (forall argv,
        match List.length argv with
        | 1 | 2 => True
        | _ =>
            printed (main argv ticks)
            = ["Got an odd number of program arguments!"%string]
            /\ configPath (main argv ticks) = None
            /\ updates (main argv ticks) = []
            /\ exists status,
                 returned (main argv ticks) = Some status
                 /\ status <> 0%Z
        end).
Proof.
  split; [reflexivity|]. split; [reflexivity|]. split; [auto|].
  intros [|a [|b [|c argv]]]; cbn [List.length]; trivial;
    (repeat split; exists (-1)%Z; split; [reflexivity | discriminate]).
Qed.

(** C1, on the code.  With the two cameras of [twoCameras] the backlog is
    [300; 100] after the first tick.  In the second tick the watermark is
    200: the loop over the backlog of the first camera skips the entry of
    time 300, finds the entry of time 100, pops the front, which is the
    entry of time 300, and hands over the entry of time 100, which is
    alive and stays in the deque; the loop of the second camera finds the
    entry of time 100 again, now at the front, pops it and calls
    [AddTagObservation] a second time for it, with the reference to the
    element it has just destroyed.  The entry of time 300 is never handed
    over, although the watermark of the third tick is 400 and the backlog
    is empty by then. *)
Theorem backlog_replay_pops_the_wrong_entry (front rear : Meas) (d : Twist) :
  let ticks := twoCameras front rear d in
  tooNewCameraObservations (finalRunner newRunner (firstn 1 ticks))
    = [observation 300 front; observation 100 rear]
  /\ deliveredPerTick newRunner ticks
     = [ [];
         [Live (observation 100 rear); Destroyed (observation 100 rear)];
         [] ]
  /\ tooNewCameraObservations (finalRunner newRunner ticks) = []
  /\ lastOdomTimestamp (finalRunner newRunner ticks) = 400%N.
Proof. cbv zeta. repeat split. Qed.

(** *** More on the loop over the backlog *)

Lemma eligible_not_newer (w : N) (o : CameraVisionObservation) :
  eligible w o = negb (newer w o).
Proof.
  unfold eligible, newer.
  destruct (N.leb_spec (timeUs o) w), (N.ltb_spec w (timeUs o));
    (reflexivity || lia).
Qed.

Lemma filter_all (A : Type) (f : A -> bool) (l : list A) :
  Forall (fun x => f x = true) l -> filter f l = l.
Proof.
  induction 1 as [|x l Hx _ IH]; cbn; [reflexivity|].
  now rewrite Hx, IH.
Qed.

Lemma filter_none (A : Type) (f : A -> bool) (l : list A) :
  Forall (fun x => f x = false) l -> filter f l = [].
Proof.
  induction 1 as [|x l Hx _ IH]; cbn; [reflexivity|].
  now rewrite Hx, IH.
Qed.

Lemma filter_passes (A : Type) (f : A -> bool) (l : list A) :
  Forall (fun x => f x = true) (filter f l).
Proof. apply Forall_forall. intros x Hx. now apply filter_In in Hx. Qed.

Lemma newer_not_eligible (w : N) (l : list CameraVisionObservation) :
  Forall (fun o => newer w o = true) l ->
  Forall (fun o => eligible w o = false) l.
Proof.
  apply Forall_impl. intros o Ho. now rewrite eligible_not_newer, Ho.
Qed.

Lemma skipn_length_app (A : Type) (a b : list A) :
  skipn (List.length a) (a ++ b) = b.
Proof. induction a as [|x a IH]; cbn; [reflexivity | exact IH]. Qed.

(** When the entries of the backlog that may go form its front part, the
    loop makes its calls for that part and leaves the rest. *)
Lemma backlogLoop_front (a b : list CameraVisionObservation) r :
  tooNewCameraObservations r = a ++ b ->
  Forall (fun o => eligible (lastOdomTimestamp r) o = true) a ->
  Forall (fun o => newer (lastOdomTimestamp r) o = true) b ->
  tooNewCameraObservations (fst (backlogLoop (tooNewCameraObservations r) 0 r))
    = b
  /\ referents (snd (backlogLoop (tooNewCameraObservations r) 0 r)) = a.
Proof.
  intros Hq Ha Hb.
  destruct (backlogLoop_members (tooNewCameraObservations r) 0 r)
    as (_ & _ & Hm).
  destruct (backlogLoop_events (tooNewCameraObservations r) 0 r) as [_ He].
  assert (Hf : filter (eligible (lastOdomTimestamp r))
                 (tooNewCameraObservations r) = a).
  { rewrite Hq, filter_app.
    rewrite (@filter_all _ (eligible (lastOdomTimestamp r)) _ Ha).
    rewrite (@filter_none _ (eligible (lastOdomTimestamp r)) _
               (@newer_not_eligible _ _ Hb)).
    apply app_nil_r. }
  split; [|rewrite He; exact Hf].
  rewrite Hm.
  change (skipn
            (List.length
               (filter (eligible (lastOdomTimestamp r))
                  (tooNewCameraObservations r)))
            (tooNewCameraObservations r) = b).
  rewrite Hf, Hq. apply skipn_length_app.
Qed.


(** One camera, when the entries of the backlog that may go form its front
    part [a]: calls for the fresh observations that may go, then for [a];
    the backlog keeps the rest [b] and gets the fresh ones that are
    newer. *)
Lemma cameraStep_front (cam : CameraListener)
  (a b : list CameraVisionObservation) r :
  tooNewCameraObservations r = a ++ b ->
  Forall (fun o => eligible (lastOdomTimestamp r) o = true) a ->
  Forall (fun o => newer (lastOdomTimestamp r) o = true) b ->
  tooNewCameraObservations (fst (cameraStep cam r))
    = b ++ filter (newer (lastOdomTimestamp r)) (pulledFrom cam)
  /\ referents (snd (cameraStep cam r))
     = filter (eligible (lastOdomTimestamp r)) (pulledFrom cam) ++ a.
Proof.
  intros Hq Ha Hb. unfold cameraStep, pulledFrom.
  assert (H1 : exists r1 fresh,
             (if ReadyToOptimize cam then camUpdateLoop (cam_update cam) r
              else (r, [])) = (r1, fresh)
             /\ lastOdomTimestamp r1 = lastOdomTimestamp r
             /\ tooNewCameraObservations r1
                = a ++ b
                  ++ filter (newer (lastOdomTimestamp r))
                       (if ReadyToOptimize cam then cam_update cam else [])
             /\ referents fresh
                = filter (eligible (lastOdomTimestamp r))
                    (if ReadyToOptimize cam then cam_update cam else [])).
  { destruct (ReadyToOptimize cam).
    - destruct (camUpdateLoop_members (cam_update cam) r) as (_ & Hw & Hm).
      destruct (camUpdateLoop_events (cam_update cam) r) as [_ He].
      destruct (camUpdateLoop (cam_update cam) r) as [r1 fresh].
      exists r1, fresh. cbn [fst snd] in *.
      rewrite Hm, Hq, <- app_assoc. auto.
    - exists r, []. cbn [filter]. rewrite app_nil_r. auto. }
  destruct H1 as (r1 & fresh & -> & Hw & Hm & Hf).
  destruct (@backlogLoop_front a
              (b ++ filter (newer (lastOdomTimestamp r))
                      (if ReadyToOptimize cam then cam_update cam else []))
              r1 Hm) as [Hb2 Ht2].
  - now rewrite Hw.
  - rewrite Hw. apply Forall_app. split; [exact Hb | apply filter_passes].
  - destruct (backlogLoop (tooNewCameraObservations r1) 0 r1) as [r2 replayed].
    cbn [fst snd] in *. rewrite referents_app, Hf, Ht2. auto.
Qed.

(** The cameras of a tick, when nothing in the backlog may go. *)
Lemma cameraLoop_clean (cams : list CameraListener) :
  forall (b : bool) r,
    Forall (fun o => newer (lastOdomTimestamp r) o = true)
      (tooNewCameraObservations r) ->
    tooNewCameraObservations (snd (fst (cameraLoop cams b r)))
      = tooNewCameraObservations r
        ++ filter (newer (lastOdomTimestamp r)) (pulled cams)
    /\ referents (snd (cameraLoop cams b r))
       = filter (eligible (lastOdomTimestamp r)) (pulled cams).
Proof.
  induction cams as [|cam rest IH]; intros b r Hq.
  - cbn. now rewrite app_nil_r.
  - cbn [cameraLoop pulled flat_map].
    destruct (@cameraStep_front cam [] (tooNewCameraObservations r) r
                eq_refl (Forall_nil _) Hq) as [Hm Ht].
    destruct (cameraStep_spec cam r) as (_ & Hw & _).
    destruct (cameraStep cam r) as [r1 evs1]. cbn [fst snd] in Hm, Ht, Hw.
    assert (Hq1 : Forall (fun o => newer (lastOdomTimestamp r1) o = true)
                    (tooNewCameraObservations r1)).
    { rewrite Hw, Hm. apply Forall_app.
      split; [exact Hq | apply filter_passes]. }
    specialize (IH (b && ReadyToOptimize cam) r1 Hq1).
    destruct (cameraLoop rest (b && ReadyToOptimize cam) r1)
      as [[b' r2] evs2].
    cbn [fst snd] in IH |- *. destruct IH as [Hm2 Ht2].
    rewrite Hw in Hm2, Ht2. fold (pulled rest).
    rewrite Hm2, Hm, referents_app, Ht, Ht2, !filter_app.
    rewrite app_nil_r, <- app_assoc. auto.
Qed.

(** Up to the cameras, [Update] leaves the backlog alone and brings the
    watermark to [watermarkOf]. *)
Lemma gather_cameras r t :
  exists (b : bool) r3,
    tooNewCameraObservations r3 = tooNewCameraObservations r
    /\ lastOdomTimestamp r3 = watermarkOf r t
    /\ snd (fst (gather r t))
       = snd (fst (cameraLoop (cameraListeners t) b r3))
    /\ referents (snd (gather r t))
       = referents (snd (cameraLoop (cameraListeners t) b r3)).
Proof.
  unfold gather, watermarkOf.
  destruct (priorStep_members (prior t) r) as (_ & Hw1 & Hq1).
  pose proof (priorStep_events (prior t) r) as Hk1.
  destruct (priorStep (prior t) r) as [r1 e1]. cbn [fst snd] in *.
  destruct (layoutStep_members (layout t) r1) as (_ & Hw2 & Hq2).
  pose proof (layoutStep_events (layout t) r1) as Hk2.
  destruct (layoutStep (layout t) r1) as [r2 e2]. cbn [fst snd] in *.
  destruct (odomLoop_members (odomUpdate t) r2) as (_ & Hw3 & Hq3).
  destruct (odomLoop_events (odomUpdate t) r2) as (Hk3 & _).
  destruct (odomLoop (odomUpdate t) r2) as [r3 e3]. cbn [fst snd] in *.
  exists (true && gotInitialGuess r2), r3.
  destruct (cameraLoop (cameraListeners t) (true && gotInitialGuess r2) r3)
    as [[b r4] e4]. cbn [fst snd].
  split; [congruence|]. split; [congruence|]. split; [reflexivity|].
  rewrite !referents_app.
  rewrite (only_referents Hk1), (only_referents Hk2),
    (only_referents Hk3) by discriminate.
  reflexivity.
Qed.

Lemma Update_referents r t :
  referents (events (Update r t)) = referents (snd (gather r t)).
Proof.
  destruct (Update_unfold r t) as (_ & -> & _).
  destruct (optimizeStep_events (readyToOptimize r t) (optimize t)
              (snd (fst (gather r t)))) as (_ & Ht & _ & _).
  now rewrite referents_app, Ht, app_nil_r.
Qed.


(** *** Which references the loop over the backlog passes *)

(** Once an entry has been skipped the iterator is ahead of the front, and
    every entry that goes after that is passed alive. *)
Lemma backlogLoop_refs_behind (range : list CameraVisionObservation) :
  forall (n : nat) r,
    tagObservations (snd (backlogLoop range (S n) r))
    = map Live (filter (eligible (lastOdomTimestamp r)) range).
Proof.
  induction range as [|it rest IH]; intros n r; [reflexivity|].
  cbn [backlogLoop filter]. unfold eligible at 1.
  destruct (timeUs it <=? lastOdomTimestamp r)%N.
  - specialize (IH n (pop_front r)).
    destruct (backlogLoop rest (S n) (pop_front r)) as [r' evs].
    cbn [snd pop_front lastOdomTimestamp] in IH |- *.
    unfold tagObservations in *. cbn. now rewrite IH.
  - apply IH.
Qed.

(** From the front: the entries that go before the first one that stays
    are each popped before they are passed, the others are passed alive. *)
Lemma backlogLoop_refs_front (range : list CameraVisionObservation) :
  forall r,
    tagObservations (snd (backlogLoop range 0 r))
    = map Destroyed (frontEligible (lastOdomTimestamp r) range)
      ++ map Live
           (filter (eligible (lastOdomTimestamp r))
              (afterFront (lastOdomTimestamp r) range)).
Proof.
  induction range as [|it rest IH]; intros r; [reflexivity|].
  cbn [backlogLoop frontEligible afterFront].
  unfold eligible at 1 3.
  destruct (timeUs it <=? lastOdomTimestamp r)%N eqn:E.
  - specialize (IH (pop_front r)).
    destruct (backlogLoop rest 0 (pop_front r)) as [r' evs].
    cbn [snd pop_front lastOdomTimestamp] in IH |- *.
    unfold tagObservations in *. cbn. now rewrite IH.
  - rewrite backlogLoop_refs_behind. cbn [map app filter].
    unfold eligible at 2. now rewrite E.
Qed.

Lemma frontEligible_split (w : N) (a b : list CameraVisionObservation) :
  Forall (fun o => eligible w o = true) a ->
  Forall (fun o => newer w o = true) b ->
  frontEligible w (a ++ b) = a /\ afterFront w (a ++ b) = b.
Proof.
  intros Ha Hb. induction Ha as [|x a Hx _ IH]; cbn.
  - destruct Hb as [|y b Hy Hb]; [auto|]. cbn.
    rewrite eligible_not_newer, Hy. auto.
  - rewrite Hx. destruct IH as [-> ->]. auto.
Qed.

Lemma backlogLoop_front_refs (a b : list CameraVisionObservation) r :
  tooNewCameraObservations r = a ++ b ->
  Forall (fun o => eligible (lastOdomTimestamp r) o = true) a ->
  Forall (fun o => newer (lastOdomTimestamp r) o = true) b ->
  tagObservations (snd (backlogLoop (tooNewCameraObservations r) 0 r))
  = map Destroyed a.
Proof.
  intros Hq Ha Hb. rewrite backlogLoop_refs_front, Hq.
  destruct (@frontEligible_split _ _ _ Ha Hb) as [-> ->].
  rewrite (@filter_none _ (eligible (lastOdomTimestamp r)) _
             (@newer_not_eligible _ _ Hb)).
  apply app_nil_r.
Qed.

Lemma cameraStep_front_refs (cam : CameraListener)
  (a b : list CameraVisionObservation) r :
  tooNewCameraObservations r = a ++ b ->
  Forall (fun o => eligible (lastOdomTimestamp r) o = true) a ->
  Forall (fun o => newer (lastOdomTimestamp r) o = true) b ->
  tagObservations (snd (cameraStep cam r))
  = map Live (filter (eligible (lastOdomTimestamp r)) (pulledFrom cam))
    ++ map Destroyed a.
Proof.
  intros Hq Ha Hb. unfold cameraStep, pulledFrom.
  assert (H1 : exists r1 fresh,
             (if ReadyToOptimize cam then camUpdateLoop (cam_update cam) r
              else (r, [])) = (r1, fresh)
             /\ lastOdomTimestamp r1 = lastOdomTimestamp r
             /\ tooNewCameraObservations r1
                = a ++ b
                  ++ filter (newer (lastOdomTimestamp r))
                       (if ReadyToOptimize cam then cam_update cam else [])
             /\ tagObservations fresh
                = map Live
                    (filter (eligible (lastOdomTimestamp r))
                       (if ReadyToOptimize cam then cam_update cam
                        else []))).
  { destruct (ReadyToOptimize cam).
    - destruct (camUpdateLoop_members (cam_update cam) r) as (_ & Hw & Hm).
      pose proof (camUpdateLoop_refs (cam_update cam) r) as He.
      destruct (camUpdateLoop (cam_update cam) r) as [r1 fresh].
      exists r1, fresh. cbn [fst snd] in *.
      rewrite Hm, Hq, <- app_assoc. auto.
    - exists r, []. cbn [filter]. rewrite app_nil_r. auto. }
  destruct H1 as (r1 & fresh & -> & Hw & Hm & Hf).
  assert (Hr : tagObservations
                 (snd (backlogLoop (tooNewCameraObservations r1) 0 r1))
               = map Destroyed a).
  { apply backlogLoop_front_refs
      with (b := b ++ filter (newer (lastOdomTimestamp r))
                        (if ReadyToOptimize cam then cam_update cam
                         else [])).
    - exact Hm.
    - now rewrite Hw.
    - rewrite Hw. apply Forall_app. split; [exact Hb | apply filter_passes]. }
  destruct (backlogLoop (tooNewCameraObservations r1) 0 r1) as [r2 replayed].
  cbn [fst snd] in *. now rewrite tagObservations_app, Hf, Hr.
Qed.

Lemma cameraLoop_clean_refs (cams : list CameraListener) :
  forall (b : bool) r,
    Forall (fun o => newer (lastOdomTimestamp r) o = true)
      (tooNewCameraObservations r) ->
    tagObservations (snd (cameraLoop cams b r))
    = map Live (filter (eligible (lastOdomTimestamp r)) (pulled cams)).
Proof.
  induction cams as [|cam rest IH]; intros b r Hq; [reflexivity|].
  cbn [cameraLoop pulled flat_map].
  destruct (@cameraStep_front cam [] (tooNewCameraObservations r) r
              eq_refl (Forall_nil _) Hq) as [Hm _].
  pose proof (@cameraStep_front_refs cam [] (tooNewCameraObservations r) r
                eq_refl (Forall_nil _) Hq) as Ht.
  destruct (cameraStep_spec cam r) as (_ & Hw & _).
  destruct (cameraStep cam r) as [r1 evs1]. cbn [fst snd] in Hm, Ht, Hw.
  assert (Hq1 : Forall (fun o => newer (lastOdomTimestamp r1) o = true)
                  (tooNewCameraObservations r1)).
  { rewrite Hw, Hm. apply Forall_app.
    split; [exact Hq | apply filter_passes]. }
  specialize (IH (b && ReadyToOptimize cam) r1 Hq1).
  destruct (cameraLoop rest (b && ReadyToOptimize cam) r1)
    as [[b' r2] evs2].
  cbn [fst snd] in IH |- *. rewrite Hw in IH. fold (pulled rest).
  rewrite tagObservations_app, Ht, IH, filter_app, map_app.
  cbn [map]. now rewrite app_nil_r.
Qed.


Lemma gather_cameras_refs r t :
  exists (b : bool) r3,
    tooNewCameraObservations r3 = tooNewCameraObservations r
    /\ lastOdomTimestamp r3 = watermarkOf r t
    /\ snd (fst (gather r t))
       = snd (fst (cameraLoop (cameraListeners t) b r3))
    /\ tagObservations (snd (gather r t))
       = tagObservations (snd (cameraLoop (cameraListeners t) b r3)).
Proof.
  unfold gather, watermarkOf.
  destruct (priorStep_members (prior t) r) as (_ & Hw1 & Hq1).
  pose proof (priorStep_events (prior t) r) as Hk1.
  destruct (priorStep (prior t) r) as [r1 e1]. cbn [fst snd] in *.
  destruct (layoutStep_members (layout t) r1) as (_ & Hw2 & Hq2).
  pose proof (layoutStep_events (layout t) r1) as Hk2.
  destruct (layoutStep (layout t) r1) as [r2 e2]. cbn [fst snd] in *.
  destruct (odomLoop_members (odomUpdate t) r2) as (_ & Hw3 & Hq3).
  destruct (odomLoop_events (odomUpdate t) r2) as (Hk3 & _).
  destruct (odomLoop (odomUpdate t) r2) as [r3 e3]. cbn [fst snd] in *.
  exists (true && gotInitialGuess r2), r3.
  destruct (cameraLoop (cameraListeners t) (true && gotInitialGuess r2) r3)
    as [[b r4] e4]. cbn [fst snd].
  split; [congruence|]. split; [congruence|]. split; [reflexivity|].
  rewrite !tagObservations_app.
  rewrite (only_tagObservations Hk1), (only_tagObservations Hk2),
    (only_tagObservations Hk3) by discriminate.
  reflexivity.
Qed.

Lemma Update_tagObservations r t :
  tagObservations (events (Update r t)) = tagObservations (snd (gather r t)).
Proof.
  destruct (Update_unfold r t) as (_ & -> & _).
  rewrite tagObservations_app.
  assert (H : tagObservations
                (fst (optimizeStep (readyToOptimize r t) (optimize t)
                        (snd (fst (gather r t))))) = []).
  { unfold optimizeStep.
    destruct (readyToOptimize r t), (optimize t); reflexivity. }
  rewrite H. apply app_nil_r.
Qed.

(** *** Further properties of the code *)



(** X3. A tick that finds nothing in the backlog that may go (an empty
    backlog in particular) admits or buffers: of the observations the ready
    cameras return, those not newer than the watermark, this tick's
    odometry included, are handed to the estimator alive and in the order
    received, and the newer ones are appended to the backlog in the order
    received.  Observations of cameras that are not ready are not looked
    at. *)
Theorem clean_backlog_admit_or_buffer r t :
  Forall (fun o => newer (watermarkOf r t) o = true)
    (tooNewCameraObservations r) ->
  tagObservations (events (Update r t))
    = map Live
        (filter (eligible (watermarkOf r t)) (pulled (cameraListeners t)))
  /\ tooNewCameraObservations (runner (Update r t))
     = tooNewCameraObservations r
       ++ filter (newer (watermarkOf r t)) (pulled (cameraListeners t)).
Proof.
  intros Hq. rewrite Update_tagObservations.
  destruct (Update_unfold r t) as (-> & _ & _).
  destruct (gather_cameras_refs r t) as (b & r3 & Hq3 & Hw3 & -> & ->).
  rewrite <- Hw3, <- Hq3 in Hq.
  destruct (@cameraLoop_clean (cameraListeners t) b r3 Hq) as [Hm _].
  pose proof (@cameraLoop_clean_refs (cameraListeners t) b r3 Hq) as Ht.
  rewrite <- Hw3, <- Hq3. auto.
Qed.


Lemma In_skipn_In (A : Type) (n : nat) (l : list A) (x : A) :
  In x (skipn n l) -> In x l.
Proof.
  intros H. rewrite <- (firstn_skipn n l). apply in_or_app. now right.
Qed.

Lemma cameraStep_incl (cam : CameraListener) r :
  incl (referents (snd (cameraStep cam r))
        ++ tooNewCameraObservations (fst (cameraStep cam r)))
       (tooNewCameraObservations r ++ pulledFrom cam).
Proof.
  unfold cameraStep, pulledFrom.
  assert (H1 : exists r1 fresh,
             (if ReadyToOptimize cam then camUpdateLoop (cam_update cam) r
              else (r, [])) = (r1, fresh)
             /\ incl (tooNewCameraObservations r1)
                  (tooNewCameraObservations r
                   ++ (if ReadyToOptimize cam then cam_update cam else []))
             /\ incl (referents fresh)
                  (if ReadyToOptimize cam then cam_update cam else [])).
  { destruct (ReadyToOptimize cam).
    - destruct (camUpdateLoop_members (cam_update cam) r) as (_ & _ & Hm).
      destruct (camUpdateLoop_events (cam_update cam) r) as [_ He].
      destruct (camUpdateLoop (cam_update cam) r) as [r1 fresh].
      exists r1, fresh. cbn [fst snd] in *. rewrite Hm, He.
      split; [reflexivity|]. split.
      + apply incl_app_app; [apply incl_refl | apply incl_filter].
      + apply incl_filter.
    - exists r, []. rewrite app_nil_r.
      split; [reflexivity|]. split; [apply incl_refl | apply incl_nil_l]. }
  destruct H1 as (r1 & fresh & -> & Hq & Hf).
  destruct (backlogLoop_members (tooNewCameraObservations r1) 0 r1)
    as (_ & _ & Hm).
  destruct (backlogLoop_events (tooNewCameraObservations r1) 0 r1) as [_ He].
  destruct (backlogLoop (tooNewCameraObservations r1) 0 r1) as [r2 replayed].
  cbn [fst snd] in *. rewrite referents_app, He, Hm.
  intros o Ho. rewrite !in_app_iff in Ho. destruct Ho as [[Ho|Ho]|Ho].
  - apply in_or_app. right. now apply Hf.
  - apply Hq. now apply filter_In in Ho.
  - apply Hq. now apply In_skipn_In in Ho.
Qed.

Lemma cameraLoop_incl (cams : list CameraListener) :
  forall (b : bool) r,
    incl (referents (snd (cameraLoop cams b r))
          ++ tooNewCameraObservations (snd (fst (cameraLoop cams b r))))
         (tooNewCameraObservations r ++ pulled cams).
Proof.
  induction cams as [|cam rest IH]; intros b r.
  - cbn. rewrite app_nil_r. apply incl_refl.
  - cbn [cameraLoop pulled flat_map]. fold (pulled rest).
    pose proof (cameraStep_incl cam r) as H1.
    destruct (cameraStep cam r) as [r1 evs1]. cbn [fst snd] in H1.
    specialize (IH (b && ReadyToOptimize cam) r1).
    destruct (cameraLoop rest (b && ReadyToOptimize cam) r1)
      as [[b' r2] evs2].
    cbn [fst snd] in IH |- *. rewrite referents_app.
    intros o Ho. rewrite !in_app_iff in Ho.
    assert (Hcase : In o (referents evs1
                          ++ tooNewCameraObservations r1)
                    \/ In o (pulled rest)).
    { destruct Ho as [[Ho|Ho]|Ho].
      - left. apply in_or_app. now left.
      - assert (Hin : In o (tooNewCameraObservations r1 ++ pulled rest))
          by (apply IH, in_or_app; now left).
        apply in_app_or in Hin. destruct Hin; [left|right]; trivial.
        apply in_or_app. now right.
      - assert (Hin : In o (tooNewCameraObservations r1 ++ pulled rest))
          by (apply IH, in_or_app; now right).
        apply in_app_or in Hin. destruct Hin; [left|right]; trivial.
        apply in_or_app. now right. }
    rewrite !in_app_iff. destruct Hcase as [Hc|Hc].
    + apply H1 in Hc. apply in_app_or in Hc. tauto.
    + tauto.
Qed.

(** X5. Where the references point.  Every reference [Update] hands to
    [AddTagObservation] points to an element, alive or just destroyed,
    that was in the backlog when [Update] began or was returned in this
    tick by a camera that reported ready, and so does every entry of the
    backlog when [Update] ends: no call is made for anything else, and
    nothing is taken from a camera that is not ready.  What is read
    through a reference to a destroyed element is not covered. *)
Theorem observations_come_from_backlog_or_ready_cameras r t :
  incl (map referent (tagObservations (events (Update r t)))
        ++ tooNewCameraObservations (runner (Update r t)))
       (tooNewCameraObservations r ++ pulled (cameraListeners t)).
Proof.
  rewrite <- referents_map, Update_referents.
  destruct (Update_unfold r t) as (-> & _ & _).
  destruct (gather_cameras r t) as (b & r3 & Hq3 & _ & -> & ->).
  rewrite <- Hq3. apply cameraLoop_incl.
Qed.

Lemma only_odometry_calls evs :
  only KAddOdometry evs -> calls evs = map AddOdometry (odometry evs).
Proof.
  unfold only, calls, odometry.
  induction 1 as [|e evs He _ IH]; [reflexivity|].
  cbn [map flat_map]. rewrite IH.
  destruct (call e); try discriminate He. reflexivity.
Qed.

Lemma only_tag_calls evs :
  only KAddTagObservation evs ->
  calls evs = map AddTagObservation (tagObservations evs).
Proof.
  unfold only, calls, tagObservations.
  induction 1 as [|e evs He _ IH]; [reflexivity|].
  cbn [map flat_map]. rewrite IH.
  destruct (call e); try discriminate He. reflexivity.
Qed.

(** X6. The calls of one [Update], in order: [Reset] if a prior is
    applied, [SetLayout] if a layout arrived, [AddOdometry] for every
    sample, then the [AddTagObservation]s, and last either the wait, or
    [Optimize], the publisher and [Flush], or [Optimize] and [Print].  So
    within a tick all the odometry reaches the estimator before any
    observation, [Optimize] runs after all of them, and the publisher runs
    right after a successful [Optimize] and before the flush. *)
Theorem calls_of_a_tick_in_order r t :
  calls (events (Update r t))
  = match prior t with
    | Some p =>
        if gotInitialGuess r then []
        else [Reset (pose (value p)) (noise (value p)) (time p)]
    | None => []
    end
    ++ match layout t with
       | Some l => [SetLayout l]
       | None => []
       end
    ++ map AddOdometry (odomUpdate t)
    ++ map AddTagObservation (tagObservations (events (Update r t)))
    ++ (if readyToOptimize r t
        then match optimize t with
             | Solved => [Optimize; DataPublisherUpdate; Flush]
             | EstimationError _ => [Optimize; Print]
             end
        else [sleep_for 1000]).
Proof.
  rewrite Update_tagObservations.
  destruct (Update_unfold r t) as (_ & -> & _).
  destruct (gather_spec r t) as (_ & _ & _ & e3 & e4 & -> & Hk3 & Ho & Hd).
  destruct Hd as (Hk4 & _ & _).
  rewrite !tagObservations_app.
  rewrite (only_tagObservations (priorStep_events (prior t) r))
    by discriminate.
  rewrite (only_tagObservations
             (layoutStep_events (layout t) (fst (priorStep (prior t) r))))
    by discriminate.
  rewrite (only_tagObservations Hk3) by discriminate.
  cbn [app]. rewrite !calls_app.
  rewrite (only_odometry_calls Hk3), Ho, (only_tag_calls Hk4).
  rewrite <- !app_assoc. f_equal; [|f_equal; [|f_equal; f_equal]].
  - destruct (prior t) as [p|]; cbn; [|reflexivity].
    destruct (gotInitialGuess r); reflexivity.
  - destruct (layout t); reflexivity.
  - unfold optimizeStep.
    destruct (readyToOptimize r t), (optimize t); reflexivity.
Qed.

(** X7. Whether a tick is ready, read off what arrives: never when a new
    layout arrives; otherwise when all cameras are ready and either a prior
    arrives or the runner has its initial guess.  The first tick after
    construction is therefore ready exactly when it brings a prior and no
    layout and every camera is ready. *)
Theorem readiness_from_inputs r t :
  readyToOptimize r t
  = match layout t, prior t with
    | Some _, _ => false
    | None, Some _ => forallb ReadyToOptimize (cameraListeners t)
    | None, None =>
        gotInitialGuess r && forallb ReadyToOptimize (cameraListeners t)
    end
  /\ (readyToOptimize newRunner t = true
      <-> prior t <> None /\ layout t = None
          /\ Forall (fun cam => ReadyToOptimize cam = true)
               (cameraListeners t)).
Proof.
  assert (H : forall r0,
             readyToOptimize r0 t
             = match layout t, prior t with
               | Some _, _ => false
               | None, Some _ => forallb ReadyToOptimize (cameraListeners t)
               | None, None =>
                   gotInitialGuess r0
                   && forallb ReadyToOptimize (cameraListeners t)
               end).
  { intros r0. destruct (Update_members r0 t) as (Hg & _ & ->).
    rewrite Hg. destruct (layout t), (prior t); reflexivity. }
  split; [apply H|]. rewrite (H newRunner).
  assert (Hf : Forall (fun cam => ReadyToOptimize cam = true)
                 (cameraListeners t)
               <-> forallb ReadyToOptimize (cameraListeners t) = true)
    by (rewrite Forall_forall, forallb_forall; reflexivity).
  rewrite Hf.
  destruct (layout t), (prior t); cbn; split;
    try discriminate; try tauto;
    try (intros (Hp & Hl & Hc); congruence).
  intros Hc. repeat split; trivial; discriminate.
Qed.



(** *** A run whose observations arrive in the order of their times *)



Lemma filter_partition_perm (w : N) (l : list CameraVisionObservation) :
  Permutation (filter (eligible w) l ++ filter (newer w) l) l.
Proof.
  induction l as [|x l IH]; [constructor|].
  cbn [filter]. rewrite (eligible_not_newer w x).
  destruct (newer w x); cbn [negb].
  - apply Permutation_sym, Permutation_cons_app, Permutation_sym, IH.
  - cbn. now constructor.
Qed.












Lemma filter_partition_length (w : N) (l : list CameraVisionObservation) :
  List.length (filter (eligible w) l) + List.length (filter (newer w) l)
  = List.length l.
Proof.
  rewrite <- length_app. apply Permutation_length, filter_partition_perm.
Qed.

Lemma cameraStep_count (cam : CameraListener) r :
  List.length (referents (snd (cameraStep cam r)))
  + List.length (tooNewCameraObservations (fst (cameraStep cam r)))
  = List.length (tooNewCameraObservations r)
    + List.length (pulledFrom cam).
Proof.
  unfold cameraStep, pulledFrom.
  assert (H1 : exists r1 fresh,
             (if ReadyToOptimize cam then camUpdateLoop (cam_update cam) r
              else (r, [])) = (r1, fresh)
             /\ List.length (referents fresh)
                + List.length (tooNewCameraObservations r1)
                = List.length (tooNewCameraObservations r)
                  + List.length
                      (if ReadyToOptimize cam then cam_update cam else [])).
  { destruct (ReadyToOptimize cam).
    - destruct (camUpdateLoop_members (cam_update cam) r) as (_ & _ & Hm).
      destruct (camUpdateLoop_events (cam_update cam) r) as [_ He].
      destruct (camUpdateLoop (cam_update cam) r) as [r1 fresh].
      exists r1, fresh. cbn [fst snd] in *. rewrite Hm, He, length_app.
      split; [reflexivity|].
      pose proof (filter_partition_length (lastOdomTimestamp r)
                    (cam_update cam)) as Hp.
      unfold eligible, newer in Hp. unfold CameraVisionObservation in *.
      lia.
    - exists r, []. cbn. split; [reflexivity | lia]. }
  destruct H1 as (r1 & fresh & -> & Hc).
  destruct (backlogLoop_members (tooNewCameraObservations r1) 0 r1)
    as (_ & _ & Hm).
  destruct (backlogLoop_events (tooNewCameraObservations r1) 0 r1) as [_ He].
  destruct (backlogLoop (tooNewCameraObservations r1) 0 r1) as [r2 replayed].
  cbn [fst snd] in *.
  rewrite referents_app, length_app, He, Hm, length_skipn.
  pose proof (filter_length_le
                (fun o => (timeUs o <=? lastOdomTimestamp r1)%N)
                (tooNewCameraObservations r1)) as Hle.
  unfold CameraVisionObservation in *. lia.
Qed.

Lemma cameraLoop_count (cams : list CameraListener) :
  forall (b : bool) r,
    List.length (referents (snd (cameraLoop cams b r)))
    + List.length (tooNewCameraObservations (snd (fst (cameraLoop cams b r))))
    = List.length (tooNewCameraObservations r) + List.length (pulled cams).
Proof.
  induction cams as [|cam rest IH]; intros b r; [cbn; lia|].
  cbn [cameraLoop pulled flat_map]. fold (pulled rest).
  pose proof (cameraStep_count cam r) as H1.
  destruct (cameraStep cam r) as [r1 evs1]. cbn [fst snd] in H1.
  specialize (IH (b && ReadyToOptimize cam) r1).
  destruct (cameraLoop rest (b && ReadyToOptimize cam) r1) as [[b' r2] evs2].
  cbn [fst snd] in IH |- *.
  rewrite referents_app, !length_app. lia.
Qed.

(** X10. In every call of [Update], whatever the order of the backlog: the
    number of calls of [AddTagObservation] plus the number of entries left
    in the backlog is the number that was in the backlog plus the number
    the ready cameras returned.  Every pop of the backlog goes with one
    [AddTagObservation] and every fresh observation is either handed over
    or buffered. *)
Theorem observations_are_counted r t :
  List.length (tagObservations (events (Update r t)))
  + List.length (tooNewCameraObservations (runner (Update r t)))
  = List.length (tooNewCameraObservations r)
    + List.length (pulled (cameraListeners t)).
Proof.
  rewrite <- (length_map referent), <- referents_map, Update_referents.
  destruct (Update_unfold r t) as (-> & _ & _).
  destruct (gather_cameras r t) as (b & r3 & Hq3 & _ & -> & ->).
  rewrite <- Hq3. apply cameraLoop_count.
Qed.

End Scheduler.

Arguments PoseWithNoise : clear implicits.
Arguments TimestampedPrior : clear implicits.
Arguments CameraListener : clear implicits.
Arguments Tick : clear implicits.
Arguments Call : clear implicits.
Arguments Event : clear implicits.
Arguments Result : clear implicits.
Arguments LocalizerRunner : clear implicits.
Arguments ConfigListener : clear implicits.
Arguments Published : clear implicits.
Arguments Process : clear implicits.

(** ** The claims on concrete runs *)

(** C3 as stated fails: after a first tick has applied a prior, a tick in
    which the configuration source returns a second prior calls no [Reset]
    at all. *)
Lemma second_prior_is_not_applied :
  let first : TimestampedPrior N N := priorOf 1%N 1%N 10%Z in
  let second : TimestampedPrior N N := priorOf 2%N 2%N 20%Z in
  let r : LocalizerRunner N := initialised (Layout:=N) (Twist:=N) first in
  let t : Tick N N N N N := withPrior second quiet in
  gotInitialGuess r = true
  /\ prior t = Some second
  /\ resets (events (Update r t)) = []
  /\ ~ In (Reset 2%N 2%N 20%Z) (calls (events (Update r t))).
Proof.
  cbv zeta. repeat split. cbn. intuition discriminate.
Qed.

(** C4 on the run [twoCameras]: the third call of [Update] starts from
    watermark 200 and leaves 400. *)
Lemma watermark_is_running_maximum_witness :
  let ticks : list (Tick N N N N N) := twoCameras 1%N 2%N 0%N in
  let rn := finalRunner newRunner (firstn 2 ticks) in
  let tn := nth 2 ticks quiet in
  nth_error (mainLoop newRunner ticks) 2 = Some (rn, tn)
  /\ lastOdomTimestamp rn = runningMax 0 [200%N]
  /\ lastOdomTimestamp (runner (Update rn tn)) = runningMax 0 [200%N; 400%N].
Proof.
  cbv zeta. split; [reflexivity|].
  pose proof (@watermark_is_running_maximum N N N N N newRunner
                (twoCameras 1%N 2%N 0%N) 2 _ _ eq_refl) as H.
  split; [exact (proj1 H) | exact (proj1 (proj2 H))].
Defined.

(** C6 on a runner that has its initial guess and a ready camera, when
    [Optimize] fails. *)
Lemma failed_optimize_is_not_published_witness :
  let r : LocalizerRunner N :=
    initialised (Layout:=N) (Twist:=N) (priorOf 1%N 1%N 10%Z) in
  let t : Tick N N N N N := failing "indeterminate system" quiet in
  readyToOptimize r t = true
  /\ optimize t = EstimationError "indeterminate system"
  /\ outcome (Update r t) = Threw
  /\ ~ In DataPublisherUpdate (calls (events (Update r t))).
Proof.
  cbv zeta. split; [reflexivity|]. split; [reflexivity|].
  pose proof (@failed_optimize_is_not_published N N N N N
                (initialised (Layout:=N) (Twist:=N) (priorOf 1%N 1%N 10%Z))
                (failing "indeterminate system" quiet)
                "indeterminate system" eq_refl eq_refl) as H.
  split; [exact (proj1 H) | exact (proj1 (proj2 H))].
Defined.

(** C7 on a runner that is ready: a tick with a new layout, then two ticks
    in which nothing arrives. *)
Lemma new_layout_blocks_until_prior_witness :
  let r : LocalizerRunner N :=
    initialised (Layout:=N) (Twist:=N) (priorOf 1%N 1%N 10%Z) in
  let idleTick : Tick N N N N N := quiet in
  let t := withLayout 7%N idleTick in
  let rest := [idleTick; idleTick] in
  let rn := finalRunner r [t; idleTick] in
  readyToOptimize r idleTick = true
  /\ layout t = Some 7%N
  /\ nth_error (mainLoop r (t :: rest)) 2 = Some (rn, idleTick)
  /\ existsb appliesPrior (firstn 2 (tl (mainLoop r (t :: rest)))) = false
  /\ readyToOptimize rn idleTick = false
  /\ gotInitialGuess (runner (Update rn idleTick)) = false.
Proof.
  cbv zeta. split; [reflexivity|]. split; [reflexivity|].
  split; [reflexivity|]. split; [reflexivity|].
  exact (@new_layout_blocks_until_prior N N N N N
           (initialised (Layout:=N) (Twist:=N) (priorOf 1%N 1%N 10%Z))
           (withLayout 7%N quiet) 7%N [quiet; quiet] 2 _ _
           eq_refl eq_refl eq_refl).
Defined.

(** C10 on a fresh runner: a prior and a layout are published before the
    first tick and nothing before the next two. *)
Lemma prior_consumed_before_layout_witness :
  let p : TimestampedPrior N N := priorOf 1%N 1%N 10%Z in
  let idleTick : Tick N N N N N := quiet in
  let feed := [(nothingPublished, idleTick); (nothingPublished, idleTick)] in
  Forall (fun x => newPrior (fst x) = None) feed
  /\ exists t later,
       listen noChange
         (({| newPrior := Some p; newLayout := Some 7%N |}, idleTick) :: feed)
       = t :: later
       /\ prior t = Some p
       /\ layout t = Some 7%N
       /\ Forall (fun x => readyToOptimize (fst x) (snd x) = false)
            (mainLoop newRunner (t :: later)).
Proof.
  cbv zeta.
  assert (Hf : Forall (fun x : Published N N N * Tick N N N N N =>
                         newPrior (fst x) = None)
                 [(nothingPublished, quiet); (nothingPublished, quiet)])
    by (repeat constructor).
  split; [exact Hf|].
  destruct (@prior_consumed_before_layout N N N N N noChange newRunner
              (priorOf 1%N 1%N 10%Z) 7%N quiet _ Hf)
    as (t & later & H1 & H2 & H3 & _ & _ & _ & H7 & _).
  exists t, later. auto.
Defined.

(** ** The further properties on concrete runs *)


(** X3 on the first tick of [oneCamera], from a fresh runner. *)
Lemma clean_backlog_admit_or_buffer_witness :
  let t : Tick N N N N N := nth 0 (oneCamera 1%N 0%N) quiet in
  Forall (fun o => newer (watermarkOf newRunner t) o = true)
    (tooNewCameraObservations (Meas:=N) newRunner)
  /\ watermarkOf newRunner t = 200%N
  /\ tagObservations (events (Update newRunner t))
     = [Live (observation 180 1%N)]
  /\ tooNewCameraObservations (runner (Update newRunner t))
     = [observation 250 1%N].
Proof.
  cbv zeta.
  assert (Hq : Forall
                 (fun o : @CameraVisionObservation N =>
                    newer (watermarkOf newRunner
                             (nth 0 (oneCamera 1%N 0%N)
                                (quiet (Pose:=N) (Noise:=N) (Layout:=N))))
                      o = true)
                 (tooNewCameraObservations newRunner))
    by apply Forall_nil.
  split; [exact Hq|]. split; [reflexivity|].
  exact (clean_backlog_admit_or_buffer _ _ Hq).
Defined.


